(** * A shallow embedding of the MDL Molfile (V2000) codec of SCINE Utils

    Source: src/Utils/Utils/IO/ChemicalFileFormats/MOLStreamHandler.cpp
    (MOLStreamHandler::write and MOLStreamHandler::read).

    Modelling conventions.
    - std::string is a list of ASCII characters ([str]).
    - [unsigned] (32 bit) and [unsigned long] (64 bit) values are Z with their
      wrap-around written out ([uint], [ulong]).
    - [double] values are exact rationals (Q); the round-off of double
      arithmetic itself is not modelled, the decimal formatting and parsing of
      the stream operators are.
    - Exceptions thrown by [read] are the constructors of [ReadError]:
      [FormatMismatch] is FormattedStreamHandler::FormatMismatchException and
      [UnsupportedVersion] is the std::logic_error thrown for "V3000".
    - The element table (ElementInfo) is an interface, the type class
      [ElementInfo]; the unit constant [angstrom_per_bohr] is a parameter. *)

From Stdlib Require Import Ascii String List ZArith QArith Qround Qabs Lia Lqa Bool FinFun.
Import ListNotations.
Open Scope Z_scope.
Open Scope list_scope.

(* ------------------------------------------------------------------ *)
(** ** Characters and strings *)

Definition str := list ascii.

Definition lit (s : string) : str := list_ascii_of_string s.

Definition nl : ascii := Ascii.ascii_of_nat 10.
Definition spc : ascii := " "%char.

Fixpoint take_while (p : ascii -> bool) (s : str) : str :=
  match s with
  | [] => []
  | c :: r => if p c then c :: take_while p r else []
  end.

(** [std::string::substr(pos, n)] (all uses in the source have [pos <= size]). *)
Definition substr (pos n : nat) (s : str) : str := firstn n (skipn pos s).

(** [line.substr(pos)]. *)
Definition substr_from (pos : nat) (s : str) : str := skipn pos s.

(** The [removeAllSpaces] lambda of [read]: erase every ' '. *)
Definition removeAllSpaces (s : str) : str :=
  filter (fun c => negb (Ascii.eqb c spc)) s.

Fixpoint str_eqb (a b : str) : bool :=
  match a, b with
  | [], [] => true
  | c :: a', d :: b' => Ascii.eqb c d && str_eqb a' b'
  | _, _ => false
  end.

(** [isspace] in the C locale. *)
Definition isspace (c : ascii) : bool :=
  match nat_of_ascii c with
  | 32 | 9 | 10 | 11 | 12 | 13 => true
  | _ => false
  end%nat.

Definition is_digit (c : ascii) : bool :=
  (48 <=? nat_of_ascii c)%nat && (nat_of_ascii c <=? 57)%nat.

Definition digit_val (c : ascii) : Z := Z.of_nat (nat_of_ascii c - 48).

Definition digit_char (d : Z) : ascii := ascii_of_nat (48 + Z.to_nat d)%nat.

(** [::toupper] and [::tolower] in the C locale. *)
Definition toupper (c : ascii) : ascii :=
  let n := nat_of_ascii c in
  if (97 <=? n)%nat && (n <=? 122)%nat then ascii_of_nat (n - 32)%nat else c.

Definition tolower (c : ascii) : ascii :=
  let n := nat_of_ascii c in
  if (65 <=? n)%nat && (n <=? 90)%nat then ascii_of_nat (n + 32)%nat else c.

(** The two [std::transform] calls of [read]: first character upper case,
    the rest lower case.  On an empty string the first range
    [begin, begin + 1) already ends past [end], and the second,
    [begin + 1, end), never reaches its end: the behaviour is undefined,
    which the model reports as [None]. *)
Definition normalize_symbol (s : str) : option str :=
  match s with
  | [] => None
  | c :: r => Some (toupper c :: map tolower r)
  end.

(* ------------------------------------------------------------------ *)
(** ** Machine integers *)

Definition uint (z : Z) : Z := z mod 2 ^ 32.
Definition ulong (z : Z) : Z := z mod 2 ^ 64.

(* ------------------------------------------------------------------ *)
(** ** Output formatting (std::ostream with the C locale) *)

(** [std::setw(w)] with the default right adjustment and fill ' '. *)
Definition setw (w : nat) (s : str) : str := repeat spc (w - length s)%nat ++ s.

(** Decimal digits of a non-negative integer, most significant first;
    [fuel] bounds the number of digits. *)
Fixpoint dec_digits (fuel : nat) (n : Z) : str :=
  match fuel with
  | O => []
  | S f => (if n <? 10 then [] else dec_digits f (n / 10)) ++ [digit_char (n mod 10)]
  end.

Definition to_dec (n : Z) : str := dec_digits (S (Z.to_nat (Z.log2 n))) n.

(** [os << std::setw(w) << n] for an unsigned [n]. *)
Definition put_unsigned (w : nat) (n : Z) : str := setw w (to_dec n).

(** Zero-padding, as [%02d] in the [put_time] conversions and the fraction
    digits of fixed notation. *)
Definition pad_zero (w : nat) (s : str) : str := repeat "0"%char (w - length s)%nat ++ s.

Definition Qltb (x y : Q) : bool := negb (Qle_bool y x).

Local Open Scope Q_scope.

(** Round to nearest integer, ties to even: the rounding of printf's
    fixed notation for an exactly representable tie. *)
Definition round_half_even (x : Q) : Z :=
  let f := Qfloor x in
  let r := x - inject_Z f in
  if Qltb r (1 # 2) then f
  else if Qltb (1 # 2) r then (f + 1)%Z
  else if Z.even f then f else (f + 1)%Z.

(** [os << std::fixed << std::setprecision(4) << x] (without the [setw]). *)
Definition put_fixed4 (x : Q) : str :=
  let m := round_half_even (Qabs x * 10000) in
  (if Qltb x 0 then ["-"%char] else [])
    ++ to_dec (m / 10000)%Z ++ ["."%char] ++ pad_zero 4 (to_dec (m mod 10000)%Z).

(** [std::round]: half away from zero.  [unsigned bondOrder = std::round(o)]
    keeps this value: the conversion is value-preserving wherever C++
    defines it (0 <= value < 2^32). *)
Definition std_round (x : Q) : Z :=
  if Qle_bool 0 x then Qfloor (x + (1 # 2)) else (- Qfloor (- x + (1 # 2)))%Z.

Local Close Scope Q_scope.

(* ------------------------------------------------------------------ *)
(** ** Number parsing (std::stoul, std::stod in the C locale) *)

Definition digits_value (ds : str) : Z :=
  fold_left (fun acc c => 10 * acc + digit_val c) ds 0.

(** Optional sign: (negative?, characters consumed, rest). *)
Definition take_sign (s : str) : bool * nat * str :=
  match s with
  | c :: r => if Ascii.eqb c "-"%char then (true, 1%nat, r)
              else if Ascii.eqb c "+"%char then (false, 1%nat, r)
              else (false, 0%nat, s)
  | [] => (false, 0%nat, s)
  end.

(** [std::stoul(s, &idx)] in base 10: [Some (value, idx)], or [None] when it
    throws (no digits: invalid_argument; above ULONG_MAX: out_of_range).
    As strtoul, a leading '-' negates the value modulo 2^64. *)
Definition stoul (s : str) : option (Z * nat) :=
  let ws := length (take_while isspace s) in
  let '(neg, ns, s2) := take_sign (skipn ws s) in
  let ds := take_while is_digit s2 in
  match ds with
  | [] => None
  | _ =>
    let v := digits_value ds in
    if 2 ^ 64 <=? v then None
    else Some (if neg then ulong (- v) else v, (ws + ns + length ds)%nat)
  end.

(** The decimal subject sequence of strtod, after leading white space:
    [sign] digits [. digits] [(e|E) [sign] digits]; its exact value, or
    [None] when there is no such sequence (no conversion is performed). *)
Definition strtod_decimal (s : str) : option Q :=
  let s1 := skipn (length (take_while isspace s)) s in
  let '(neg, _, s2) := take_sign s1 in
  let ip := take_while is_digit s2 in
  let s3 := skipn (length ip) s2 in
  let '(fp, s4) :=
    match s3 with
    | c :: r => if Ascii.eqb c "."%char then (take_while is_digit r, skipn (length (take_while is_digit r)) r)
                else ([], s3)
    | [] => ([], s3)
    end in
  match ip ++ fp with
  | [] => None
  | mant =>
    let e :=
      match s4 with
      | c :: r =>
        if Ascii.eqb c "e"%char || Ascii.eqb c "E"%char then
          let '(eneg, _, r2) := take_sign r in
          match take_while is_digit r2 with
          | [] => 0
          | eds => if eneg then - digits_value eds else digits_value eds
          end
        else 0
      | [] => 0
      end in
    let v := (inject_Z (digits_value mant) * Qpower 10 (e - Z.of_nat (length fp)))%Q in
    Some (if neg then (- v)%Q else v)
  end.

Definition is_hex_digit (c : ascii) : bool :=
  let n := nat_of_ascii c in
  is_digit c || ((97 <=? n)%nat && (n <=? 102)%nat) || ((65 <=? n)%nat && (n <=? 70)%nat).

(** Case-insensitive prefix test, for strtod's "inf" and "nan". *)
Definition starts_ci (p s : str) : bool := str_eqb (map tolower (firstn (length p) s)) p.

(** The forms of strtod's subject sequence (after the sign) other than the
    decimal one: hexadecimal ("0x" followed by a hex digit or by '.' and a
    hex digit), infinity and NaN. *)
Definition strtod_other_form (s2 : str) : bool :=
  match s2 with
  | c0 :: c1 :: r =>
    Ascii.eqb c0 "0"%char && (Ascii.eqb c1 "x"%char || Ascii.eqb c1 "X"%char)
    && match r with
       | c2 :: r' => is_hex_digit c2 || (Ascii.eqb c2 "."%char &&
                                          match r' with c3 :: _ => is_hex_digit c3 | [] => false end)
       | [] => false
       end
  | _ => false
  end
  || starts_ci (lit "inf") s2 || starts_ci (lit "nan") s2.

(** The smallest normal double, 2^-1022, and the least value that rounds
    past the largest double, 2^1024 - 2^970. *)
Definition dbl_min : Q := / inject_Z (2 ^ 1022).
Definition dbl_overflow : Q := inject_Z (2 ^ 1024 - 2 ^ 970).

(** What [std::stod(s)] does: [Parsed v] when it returns (the value before
    rounding to a double), [Throws] when it throws (invalid_argument: no
    conversion; out_of_range: the value overflows, where the C standard
    requires ERANGE), and [Unmodelled] where the model does not determine
    the outcome: the hexadecimal, infinity and NaN forms, and nonzero values
    below the smallest normal double, where whether ERANGE is set (and the
    call throws) is implementation-defined. *)
Inductive stod_result := Parsed (v : Q) | Throws | Unmodelled.

Definition stod (s : str) : stod_result :=
  let '(_, _, s2) := take_sign (skipn (length (take_while isspace s)) s) in
  if strtod_other_form s2 then Unmodelled
  else match strtod_decimal s with
       | None => Throws
       | Some v =>
         if Qeq_bool v 0 then Parsed v
         else if Qltb (Qabs v) dbl_min then Unmodelled
         else if Qltb (Qabs v) dbl_overflow then Parsed v
         else Throws
       end.

(* ------------------------------------------------------------------ *)
(** ** Data model *)

(** ElementInfo::symbol and ElementInfo::elementTypeForSymbol (which throws
    ElementSymbolNotFound where the model returns [None]), and the element a
    default-constructed AtomCollection holds. *)
Class ElementInfo (ElementType : Type) := {
  symbol : ElementType -> str;
  elementTypeForSymbol : str -> option ElementType;
  element_none : ElementType
}.

Record Position := mkPosition { px : Q; py : Q; pz : Q }.

Record Atom {ElementType : Type} := mkAtom { element : ElementType; position : Position }.
Arguments Atom : clear implicits.
Arguments mkAtom {ElementType}.

Definition AtomCollection (ElementType : Type) := list (Atom ElementType).

Definition origin : Position := mkPosition 0 0 0.

Definition default_atom {ElementType} `{ElementInfo ElementType} : Atom ElementType :=
  mkAtom element_none origin.

(** Modelled from the spec: BondOrderCollection (its source is not part of
    src/).  "Symmetric mapping from an unordered pair of atom indices to a
    continuous bond order ...  Absence of an entry is equivalent to order 0."
    [bo_size] is the size given to [resize]. *)
Record BondOrderCollection := mkBondOrderCollection {
  bo_size : Z;
  getOrder : Z -> Z -> Q
}.

(** Modelled from the spec: a fresh, empty BondOrderCollection. *)
Definition emptyBondOrders : BondOrderCollection :=
  mkBondOrderCollection 0 (fun _ _ => 0%Q).

(** Modelled from the spec: [resize(n)] of the (empty) collection. *)
Definition resize (b : BondOrderCollection) (n : Z) : BondOrderCollection :=
  mkBondOrderCollection n (getOrder b).

(** Modelled from the spec: [setOrder(a, b, o)] records [o] for the
    unordered pair {a, b}. *)
Definition setOrder (bo : BondOrderCollection) (a b : Z) (o : Q) : BondOrderCollection :=
  mkBondOrderCollection (bo_size bo)
    (fun i j => if ((i =? a) && (j =? b)) || ((i =? b) && (j =? a)) then o else getOrder bo i j).

(** The fields of [localtime] that [std::put_time(.., "%m%d%y%H%M")] reads. *)
Record tm := mkTm { tm_mon : Z; tm_mday : Z; tm_year : Z; tm_hour : Z; tm_min : Z }.

Definition put_time_mdyHM (t : tm) : str :=
  pad_zero 2 (to_dec (tm_mon t + 1)) ++ pad_zero 2 (to_dec (tm_mday t))
  ++ pad_zero 2 (to_dec ((tm_year t + 1900) mod 100))
  ++ pad_zero 2 (to_dec (tm_hour t)) ++ pad_zero 2 (to_dec (tm_min t)).

(* ------------------------------------------------------------------ *)
(** ** MOLStreamHandler::write *)

Section Writer.
Context {ElementType : Type} `{ElementInfo ElementType}.
Variable angstrom_per_bohr : Q.

(** [for (unsigned i = 0; i < N - 1; ++i) for (unsigned j = i + 1; j < N; ++j)]:
    the pairs visited, in order.  [N - 1] is unsigned: for [N = 0] it is
    2^32 - 1 and every inner loop is empty. *)
Definition pair_loop (N : Z) : list (nat * nat) :=
  flat_map (fun i => map (fun j => (i, j)) (seq (S i) (Z.to_nat N - S i)))
           (seq 0 (Z.to_nat (uint (N - 1)))).

(** [++valences[k]] on a [std::vector<unsigned>]. *)
Fixpoint list_inc (v : list Z) (k : nat) : list Z :=
  match v, k with
  | [], _ => []
  | x :: r, O => uint (x + 1) :: r
  | x :: r, S k' => x :: list_inc r k'
  end.

(** [0.5 <= order && order < 3.5] *)
Definition valence_band (o : Q) : bool := Qle_bool (1 # 2) o && Qltb o (7 # 2).

(** The [valences] vector of [write]. *)
Definition count_valences (N : Z) (bondOrdersOption : option BondOrderCollection) : list Z :=
  let v0 := repeat 0 (Z.to_nat N) in
  match bondOrdersOption with
  | None => v0
  | Some bondOrders =>
    fold_left (fun v '(i, j) =>
                 if valence_band (getOrder bondOrders (Z.of_nat i) (Z.of_nat j))
                 then list_inc (list_inc v i) j else v)
              (pair_loop N) v0
  end.

(** [std::accumulate(.., 0u, std::plus<>())] over [unsigned]. *)
Definition accumulate_uint (v : list Z) : Z := fold_left (fun acc x => uint (acc + x)) v 0.

(** [0 < bondOrder && bondOrder < 4] *)
Definition emitted_order (bondOrder : Z) : bool := (0 <? bondOrder) && (bondOrder <? 4).

(** The (i, j, bondOrder) of every bond line, in output order. *)
Definition bond_entries (N : Z) (bondOrdersOption : option BondOrderCollection)
  : list (nat * nat * Z) :=
  match bondOrdersOption with
  | None => []
  | Some bondOrders =>
    flat_map (fun '(i, j) =>
                let bondOrder := std_round (getOrder bondOrders (Z.of_nat i) (Z.of_nat j)) in
                if emitted_order bondOrder then [(i, j, bondOrder)] else [])
             (pair_loop N)
  end.

Definition name_line : str := lit "Unnamed Molecule".

Definition program_line (t : tm) : str :=
  setw 2 (lit "##") ++ setw 8 (lit "SCINE") ++ put_time_mdyHM t ++ lit "3D".

(** aaa bbb lll fff ccc sss xxx rrr ppp iii mmm vvvvvv *)
Definition counts_line (N B : Z) (formatVersion : str) : str :=
  put_unsigned 3 N ++ put_unsigned 3 B
  ++ concat (repeat (put_unsigned 3 0) 8)
  ++ put_unsigned 3 999 ++ setw 6 formatVersion.

(** x y z, symbol, dd ccc sss hhh bbb, vvv (valence), HHH rrr iii mmm nnn eee *)
Definition atom_line (p : Position) (e : ElementType) (valence : Z) : str :=
  setw 10 (put_fixed4 (px p * angstrom_per_bohr)%Q)
  ++ setw 10 (put_fixed4 (py p * angstrom_per_bohr)%Q)
  ++ setw 10 (put_fixed4 (pz p * angstrom_per_bohr)%Q)
  ++ [spc] ++ setw 3 (symbol e)
  ++ put_unsigned 2 0 ++ concat (repeat (put_unsigned 3 0) 4)
  ++ put_unsigned 3 valence
  ++ concat (repeat (put_unsigned 3 0) 6).

(** 111 222 ttt sss xxx rrr ccc *)
Definition bond_line (i j : nat) (bondOrder : Z) : str :=
  put_unsigned 3 (1 + Z.of_nat i) ++ put_unsigned 3 (1 + Z.of_nat j)
  ++ put_unsigned 3 bondOrder ++ concat (repeat (put_unsigned 3 0) 4).

(** [const unsigned N = atoms.size();] *)
Definition atom_count (atoms : AtomCollection ElementType) : Z := uint (Z.of_nat (length atoms)).

(** [const unsigned B = std::accumulate(valences ...) / 2;] *)
Definition bond_count (atoms : AtomCollection ElementType)
    (bondOrdersOption : option BondOrderCollection) : Z :=
  accumulate_uint (count_valences (atom_count atoms) bondOrdersOption) / 2.

(** The lines [write] ends with a newline, in order; "M END" follows them. *)
Definition write_lines (atoms : AtomCollection ElementType)
    (bondOrdersOption : option BondOrderCollection) (formatVersion : str) (now : tm)
  : list str :=
  let N := atom_count atoms in
  let valences := count_valences N bondOrdersOption in
  let B := bond_count atoms bondOrdersOption in
  [name_line; program_line now; []; counts_line N B formatVersion]
  ++ map (fun i => let a := nth i atoms default_atom in
                   atom_line (position a) (element a) (nth i valences 0))
         (seq 0 (Z.to_nat N))
  ++ map (fun '(i, j, bondOrder) => bond_line i j bondOrder) (bond_entries N bondOrdersOption).

Definition terminator : str := lit "M END".

(** [MOLStreamHandler::write(os, atoms, bondOrdersOption, formatVersion)],
    [now] being [localtime(time(nullptr))]. *)
Definition write (atoms : AtomCollection ElementType)
    (bondOrdersOption : option BondOrderCollection) (formatVersion : str) (now : tm) : str :=
  concat (map (fun l => l ++ [nl]) (write_lines atoms bondOrdersOption formatVersion now))
  ++ terminator.

End Writer.

(* ------------------------------------------------------------------ *)
(** ** std::istream *)

(** The stream: unread characters and the eof bit.  Every failure in [read]'s
    use of the stream happens at end of input, where eofbit is set together
    with failbit, so [eof] also stands for "not good()". *)
Record istream := mkIstream { rest : str; eof : bool }.

Fixpoint break_line (s : str) : option (str * str) :=
  match s with
  | [] => None
  | c :: r =>
    if Ascii.eqb c nl then Some ([], r)
    else match break_line r with
         | Some (l, after) => Some (c :: l, after)
         | None => None
         end
  end.

(** The [skipLine] lambda: [is.ignore(max, '\n')]. *)
Definition skipLine (st : istream) : istream :=
  if eof st then st
  else match break_line (rest st) with
       | Some (_, after) => mkIstream after false
       | None => mkIstream [] true
       end.

(** [std::getline(is, line)]: new stream, new value of [line], and whether
    the stream converts to true.  If the sentry fails (eof already set)
    [line] is left unchanged; if nothing is left it is cleared. *)
Definition getline (st : istream) (line : str) : istream * str * bool :=
  if eof st then (st, line, false)
  else match rest st with
       | [] => (mkIstream [] true, [], false)
       | _ =>
         match break_line (rest st) with
         | Some (l, after) => (mkIstream after false, l, true)
         | None => (mkIstream [] true, rest st, true)
         end
       end.

(* ------------------------------------------------------------------ *)
(** ** MOLStreamHandler::read *)

(** The exceptions [read] throws. *)
Inductive ReadError :=
| FormatMismatch       (** FormattedStreamHandler::FormatMismatchException *)
| UnsupportedVersion   (** std::logic_error("V3000 MOL Format not implemented!") *)
| UndefinedBehaviour   (** not an exception: the source's behaviour is undefined *)
| NotModelled.         (** not an exception: a [std::stod] outcome the model leaves open *)

Inductive result (A : Type) :=
| Ok (a : A)
| Err (e : ReadError).
Arguments Ok {A}.
Arguments Err {A}.

Definition bind {A B : Type} (m : result A) (f : A -> result B) : result B :=
  match m with
  | Ok a => f a
  | Err e => Err e
  end.

Notation "'let*' x := m 'in' f" := (bind m (fun x => f)) (at level 200, x name, m at level 100, f at level 200).

(** The counts-line scan: [while (std::getline(is, line)) { ... }] with the
    variables [atomBlockSize] and [bondBlockSize] it assigns.  [fuel] bounds
    the iterations; every successful [getline] consumes at least one
    character, so [length (rest st) + 1] rounds reach the failing one. *)
Fixpoint scan_counts (fuel : nat) (st : istream) (line : str) (atomBlockSize bondBlockSize : Z)
  : istream * str * Z * Z :=
  match fuel with
  | O => (st, line, atomBlockSize, bondBlockSize)
  | S f =>
    let '(st, line, ok) := getline st line in
    if negb ok then (st, line, atomBlockSize, bondBlockSize)
    else if (length line <? 38)%nat then scan_counts f st line atomBlockSize bondBlockSize
    else match stoul (substr 0 3 line) with
         | None => scan_counts f st line atomBlockSize bondBlockSize
         | Some (va, ca) =>
           if negb (Nat.eqb ca 3) then scan_counts f st line 0 bondBlockSize
           else match stoul (substr 3 3 line) with
                | None => scan_counts f st line (uint va) bondBlockSize
                | Some (vb, cb) =>
                  if negb (Nat.eqb cb 3) then scan_counts f st line (uint va) 0
                  else (st, line, uint va, uint vb)
                end
         end
  end.

(** A [std::stod] call inside the atom block's [try]: the exception is
    turned into FormatMismatchException. *)
Definition stod_or_catch (s : str) : result Q :=
  match stod s with
  | Parsed v => Ok v
  | Throws => Err FormatMismatch
  | Unmodelled => Err NotModelled
  end.

Section Reader.
Context {ElementType : Type} `{ElementInfo ElementType}.
Variable angstrom_per_bohr : Q.

(** Modelled from the spec: Constants::bohr_per_angstrom, "the inverse of
    the writer's factor". *)
Definition bohr_per_angstrom : Q := / angstrom_per_bohr.

(** The atom block loop [for (unsigned i = 0; i < atomBlockSize; ++i)]. *)
Fixpoint read_atom_block (n : nat) (st : istream) (line : str)
  : result (list (Atom ElementType) * istream * str) :=
  match n with
  | O => Ok ([], st, line)
  | S k =>
    let '(st, line, _) := getline st line in
    if (length line <? 34)%nat then Err FormatMismatch
    else
      let* x := stod_or_catch (substr 0 10 line) in
      let* y := stod_or_catch (substr 10 10 line) in
      let* z := stod_or_catch (substr 20 10 line) in
      match normalize_symbol (removeAllSpaces (substr 31 3 line)) with
      | None => Err UndefinedBehaviour
      | Some elementStr =>
        match elementTypeForSymbol elementStr with
        | None => Err FormatMismatch
        | Some f =>
          let a := mkAtom f (mkPosition (x * bohr_per_angstrom) (y * bohr_per_angstrom)
                                        (z * bohr_per_angstrom)) in
          let* r := read_atom_block k st line in
          let '(atoms, st, line) := r in
          Ok (a :: atoms, st, line)
        end
      end
  end.

(** The bond block loop [for (unsigned i = 0; i < bondBlockSize; ++i)]. *)
Fixpoint read_bond_block (n : nat) (st : istream) (line : str) (bondOrders : BondOrderCollection)
  : result (BondOrderCollection * istream * str) :=
  match n with
  | O => Ok (bondOrders, st, line)
  | S k =>
    let '(st, line, _) := getline st line in
    if (length line <? 9)%nat then Err FormatMismatch
    else match stoul (substr 0 3 line), stoul (substr 3 3 line), stoul (substr 6 3 line) with
         | Some (va, 3%nat), Some (vb, 3%nat), Some (vs, 3%nat) =>
           (* MOLFile indices are 1-based, thus subtract one (unsigned) *)
           let a := uint (uint va - 1) in
           let b := uint (uint vb - 1) in
           let molBondSpecifier := uint vs in
           let bondOrders :=
             if (0 <? molBondSpecifier) && (molBondSpecifier <? 4)
             then setOrder bondOrders a b (inject_Z molBondSpecifier) else bondOrders in
           read_bond_block k st line bondOrders
         | _, _, _ => Err FormatMismatch
         end
  end.

(** [MOLStreamHandler::read(is)]. *)
Definition read (input : str) : result (AtomCollection ElementType * BondOrderCollection) :=
  let st := skipLine (skipLine (skipLine (mkIstream input false))) in
  let '(st, line, atomBlockSize, bondBlockSize) := scan_counts (S (length (rest st))) st [] 0 0 in
  if eof st then Err FormatMismatch
  else
    let versionString := removeAllSpaces (substr_from 33 line) in
    if str_eqb versionString (lit "V3000") then Err UnsupportedVersion
    else
      let* r :=
        if str_eqb versionString (lit "V2000")
        then read_atom_block (Z.to_nat atomBlockSize) st line
        else Ok (repeat default_atom (Z.to_nat atomBlockSize), st, line) in
      let '(atoms, st, line) := r in
      let* r :=
        if 0 <? bondBlockSize
        then read_bond_block (Z.to_nat bondBlockSize) st line (resize emptyBondOrders atomBlockSize)
        else Ok (emptyBondOrders, st, line) in
      let '(bondOrders, _, _) := r in
      Ok (atoms, bondOrders).

End Reader.

(** The state [read] reaches after the three [skipLine] calls and the
    counts-line scan: stream, [line], [atomBlockSize], [bondBlockSize]. *)
Definition after_counts (input : str) : istream * str * Z * Z :=
  let st := skipLine (skipLine (skipLine (mkIstream input false))) in
  scan_counts (S (length (rest st))) st [] 0 0.

(* ------------------------------------------------------------------ *)
(** ** The format-taking overloads of MOLStreamHandler *)

(** Modelled from the spec: the support type of the dispatch interface
    (FormattedStreamHandler::SupportType, whose header is not part of src/);
    MOLStreamHandler names only [ReadWrite]. *)
Inductive SupportType := ReadOnly | WriteOnly | ReadWrite.

(** What the format-taking overloads throw: FormatUnsupportedException, or
    an exception of [read(is)] passed on. *)
Inductive HandlerError :=
| FormatUnsupported
| ReadFailed (e : ReadError).

(** [MOLStreamHandler::formats()]. *)
Definition formats : list (str * SupportType) := [(lit "mol", ReadWrite)].

(** [MOLStreamHandler::formatSupported(format, operation)]. *)
Definition formatSupported (format : str) (operation : SupportType) : bool :=
  if str_eqb format (lit "mol") then true else false.

Section Dispatch.
Context {ElementType : Type} `{ElementInfo ElementType}.
Variable angstrom_per_bohr : Q.

(** [MOLStreamHandler::read(is, format)]. *)
Definition read_format (input : str) (format : str)
  : HandlerError + (AtomCollection ElementType * BondOrderCollection) :=
  if negb (str_eqb format (lit "mol")) then inl FormatUnsupported
  else match read angstrom_per_bohr input with
       | Ok data => inr data
       | Err e => inl (ReadFailed e)
       end.

(** [MOLStreamHandler::write(os, format, atoms)]: the text written. *)
Definition write_format (format : str) (atoms : AtomCollection ElementType) (now : tm)
  : HandlerError + str :=
  if negb (str_eqb format (lit "mol")) then inl FormatUnsupported
  else inr (write angstrom_per_bohr atoms None (lit "V2000") now).

(** [MOLStreamHandler::write(os, format, atoms, bondOrders)]. *)
Definition write_format_bonds (format : str) (atoms : AtomCollection ElementType)
    (bondOrders : BondOrderCollection) (now : tm) : HandlerError + str :=
  if negb (str_eqb format (lit "mol")) then inl FormatUnsupported
  else inr (write angstrom_per_bohr atoms (Some bondOrders) (lit "V2000") now).

End Dispatch.

(* ------------------------------------------------------------------ *)
(** ** Lines of text, and the lines the reader accepts *)

Definition all_digits (s : str) : Prop := Forall (fun c => is_digit c = true) s.

Definition nl_free (s : str) : bool := forallb (fun c => negb (Ascii.eqb c nl)) s.

(** Lines, each followed by a newline. *)
Definition join_lines (ls : list str) : str := concat (map (fun l => l ++ [nl]) ls).

(** The element [read] finds for a symbol field with its spaces removed,
    where the normalisation is defined. *)
Definition lookup_symbol {E} `{ElementInfo E} (s : str) : option E :=
  match normalize_symbol s with
  | Some s' => elementTypeForSymbol s'
  | None => None
  end.

(** A line [l] that one round of [read_atom_block] turns into the atom
    [at']: no newline in it, long enough, three numbers and a known symbol. *)
Definition atom_line_read {E} `{ElementInfo E} (angstrom_per_bohr : Q) (l : str) (at' : Atom E) : Prop :=
  nl_free l = true /\ (34 <= length l)%nat /\
  exists x y z,
    stod (substr 0 10 l) = Parsed x /\ stod (substr 10 10 l) = Parsed y /\
    stod (substr 20 10 l) = Parsed z /\
    lookup_symbol (removeAllSpaces (substr 31 3 l)) = Some (element at') /\
    position at' = mkPosition (x * bohr_per_angstrom angstrom_per_bohr)
                              (y * bohr_per_angstrom angstrom_per_bohr)
                              (z * bohr_per_angstrom angstrom_per_bohr).

(** A line [l] that one round of [read_bond_block] turns into [setOrder]
    of the pair (x, y) with the order [o]. *)
Definition bond_line_read (l : str) (e : Z * Z * Z) : Prop :=
  let '(x, y, o) := e in
  nl_free l = true /\ (9 <= length l)%nat /\
  exists va vb,
    stoul (substr 0 3 l) = Some (va, 3%nat) /\ stoul (substr 3 3 l) = Some (vb, 3%nat) /\
    stoul (substr 6 3 l) = Some (o, 3%nat) /\
    x = uint (uint va - 1) /\ y = uint (uint vb - 1) /\ 0 < o < 4.

(** A stream whose lines are all shorter than a counts line, or which is at
    its end already. *)
Definition no_counts_line (st : istream) : Prop :=
  eof st = true \/
  exists ls last, rest st = join_lines ls ++ last /\ eof st = false /\
    Forall (fun l => nl_free l = true /\ (length l < 38)%nat) ls /\
    nl_free last = true /\ (length last < 38)%nat.

(** A bond order of 0, 1, 2 or 3. *)
Definition discrete_order (o : Q) : Prop := exists k, 0 <= k <= 3 /\ o = inject_Z k.

(** A value whose fixed notation with four decimals fits ten columns:
    at most four integer digits when negative, five otherwise, after
    rounding the fifth decimal. *)
Definition fits_fixed10 (x : Q) : Prop :=
  (- (199999999 # 20000) < x /\ x < 1999999999 # 20000)%Q.

(** What the round trip of C1 needs of an atom: its symbol is looked up
    again, has no spaces and no newline, fits its three columns, and its
    coordinates, in angstrom, fit the ten columns of fixed notation. *)
Definition atom_writable {E} `{ElementInfo E} (angstrom_per_bohr : Q) (at' : Atom E) : Prop :=
  lookup_symbol (symbol (element at')) = Some (element at')
  /\ removeAllSpaces (symbol (element at')) = symbol (element at')
  /\ nl_free (symbol (element at')) = true /\ (length (symbol (element at')) <= 3)%nat
  /\ fits_fixed10 (px (position at') * angstrom_per_bohr)
  /\ fits_fixed10 (py (position at') * angstrom_per_bohr)
  /\ fits_fixed10 (pz (position at') * angstrom_per_bohr).

(** An atom read back: the same element, and each coordinate (in bohr)
    within half a unit of the fourth decimal of angstrom. *)
Definition atom_close {E} (angstrom_per_bohr : Q) (at' at0 : Atom E) : Prop :=
  element at' = element at0
  /\ (Qabs (px (position at') - px (position at0)) <= (1 # 20000) / angstrom_per_bohr)%Q
  /\ (Qabs (py (position at') - py (position at0)) <= (1 # 20000) / angstrom_per_bohr)%Q
  /\ (Qabs (pz (position at') - pz (position at0)) <= (1 # 20000) / angstrom_per_bohr)%Q.

(* ------------------------------------------------------------------ *)
(** ** A sample element table and inputs (for the concrete checks) *)

Inductive SampleElement := ElNone | ElH | ElC | ElO.

Definition sample_symbol (e : SampleElement) : str :=
  match e with
  | ElNone => lit "None"
  | ElH => lit "H"
  | ElC => lit "C"
  | ElO => lit "O"
  end.

Definition sample_lookup (s : str) : option SampleElement :=
  if str_eqb s (lit "H") then Some ElH
  else if str_eqb s (lit "C") then Some ElC
  else if str_eqb s (lit "O") then Some ElO
  else None.

#[export] Instance sample_element_info : ElementInfo SampleElement := {
  symbol := sample_symbol;
  elementTypeForSymbol := sample_lookup;
  element_none := ElNone
}.

(** A value of the unit constant (CODATA 2018 bohr radius in angstrom). *)
Definition sample_angstrom_per_bohr : Q := 529177210903 # 1000000000000.

Definition sample_now : tm := mkTm 9 17 126 12 30.

(** The bond orders of a table, symmetric, 0 elsewhere. *)
Definition orders_of (l : list (Z * Z * Q)) : BondOrderCollection :=
  fold_left (fun b '(i, j, o) => setOrder b i j o) l emptyBondOrders.

(** 65537 carbon atoms at the origin, every pair at bond order 1. *)
Definition dense_atoms : AtomCollection SampleElement :=
  repeat (mkAtom ElC origin) (Z.to_nat 65537).

Definition all_single_bonds : BondOrderCollection := mkBondOrderCollection 0 (fun _ _ => 1%Q).

(** A text made of newline-terminated lines. *)
Definition text (ls : list string) : str := concat (map (fun l => lit l ++ [nl]) ls).

Definition carbon_line : string := "    0.0000    0.0000    0.0000 C   0  0  0  0  0  0  0  0  0  0  0  0"%string.

(** Three empty header lines. *)
Definition blank_lines : list string := [EmptyString; EmptyString; EmptyString].

(** A V2000 molecule of two atoms whose bond lines name atom 0 and atom 5. *)
Definition out_of_range_input : str :=
  text (blank_lines ++ ["  2  2  0  0  0  0  0  0  0  0999 V2000"%string; carbon_line; carbon_line;
        "  0  2  1  0  0  0  0"%string; "  5  1  2  0  0  0  0"%string; "M  END"%string]).

(** A counts line with an unknown version tag, followed by a bond line. *)
Definition unknown_version_input : str :=
  text (blank_lines ++ ["  2  1  0  0  0  0  0  0  0  0999 VXXXX"%string; "  1  2  1  0  0  0  0"%string; "M  END"%string]).

(** A V3000 counts line that ends the input, without a final newline. *)
Definition v3000_last_line_input : str :=
  text blank_lines ++ lit "  0  0  0  0  0  0  0  0  0  0999 V3000"%string.

(** A V2000 counts line with no atoms and no bonds that ends the input,
    without a final newline. *)
Definition v2000_last_line_input : str :=
  text blank_lines ++ lit "  0  0  0  0  0  0  0  0  0  0999 V2000"%string.

(** Three atoms; the pair (0, 1) has order 0.5 and the pair (1, 2) order 0.49999. *)
Definition band_atoms : AtomCollection SampleElement :=
  [mkAtom ElH origin; mkAtom ElC origin; mkAtom ElO origin].

Definition band_orders : BondOrderCollection :=
  mkBondOrderCollection 3 (fun x y => if x + y =? 1 then (1 # 2)%Q
                                      else if x + y =? 3 then (49999 # 100000)%Q else 0%Q).

(** A V2000 molecule of two atoms whose second atom line has the symbol "Xx". *)
Definition unknown_symbol_input : str :=
  text (blank_lines ++ ["  2  0  0  0  0  0  0  0  0  0999 V2000"%string; carbon_line;
        "    1.0000    0.0000    0.0000 Xx  0  0  0  0  0  0  0  0  0  0  0  0"%string;
        "M  END"%string]).

(** A carbon atom line with the symbol column left blank. *)
Definition blank_symbol_line : string :=
  "    0.0000    0.0000    0.0000     0  0  0  0  0  0  0  0  0  0  0  0"%string.

(** A V2000 molecule of one atom whose symbol field is all spaces. *)
Definition blank_symbol_input : str :=
  text (blank_lines ++ ["  1  0  0  0  0  0  0  0  0  0999 V2000"%string; blank_symbol_line;
        "M  END"%string]).

(** Two carbon atoms 1 bohr apart with a single bond. *)
Definition pair_atoms : AtomCollection SampleElement :=
  [mkAtom ElC origin; mkAtom ElC (mkPosition 1 0 0)].

Definition single_bond : BondOrderCollection :=
  mkBondOrderCollection 2 (fun x y => if x + y =? 1 then 1%Q else 0%Q).

(** Two carbon atoms 0.00009 bohr apart with bond order 3.5. *)
Definition close_atoms : AtomCollection SampleElement :=
  [mkAtom ElC origin; mkAtom ElC (mkPosition (9 # 100000) 0 0)].

Definition order_7_2 : BondOrderCollection :=
  mkBondOrderCollection 2 (fun x y => if x + y =? 1 then (7 # 2)%Q else 0%Q).

(** The atoms and the bond orders of a result of [read], if it succeeds. *)
Definition ok_atoms {E} (r : result (AtomCollection E * BondOrderCollection)) : AtomCollection E :=
  match r with Ok (atoms, _) => atoms | Err _ => [] end.

Definition ok_orders {E} (r : result (AtomCollection E * BondOrderCollection)) : BondOrderCollection :=
  match r with Ok (_, bo) => bo | Err _ => emptyBondOrders end.

(** A V2000 counts line announcing two atoms, followed by one atom line. *)
Definition truncated_atoms_input : str :=
  text (blank_lines ++ ["  2  0  0  0  0  0  0  0  0  0999 V2000"%string; carbon_line]).

(** One atom and two announced bonds, of which one bond line is there. *)
Definition truncated_bonds_input : str :=
  text (blank_lines ++ ["  1  2  0  0  0  0  0  0  0  0999 V2000"%string; carbon_line;
        "  1  1  1  0  0  0  0"%string]).

(** Three announced atoms and one atom line, without a final newline. *)
Definition unterminated_input : str :=
  text (blank_lines ++ ["  3  0  0  0  0  0  0  0  0  0999 V2000"%string]) ++ lit carbon_line.

(** The atom [read_atom_block] makes of [carbon_line]. *)
Definition carbon_read (angstrom_per_bohr : Q) : Atom SampleElement :=
  let num k := match stod (substr k 10 (lit carbon_line)) with Parsed q => q | _ => 0%Q end in
  mkAtom ElC (mkPosition (num 0%nat * bohr_per_angstrom angstrom_per_bohr)
                         (num 10%nat * bohr_per_angstrom angstrom_per_bohr)
                         (num 20%nat * bohr_per_angstrom angstrom_per_bohr)).

(* ================================================================== *)
(** * Proofs *)

(* ------------------------------------------------------------------ *)
(** ** Rounding *)

Lemma Qle_Qfloor (k : Z) (x : Q) : (k <= Qfloor x)%Z <-> (inject_Z k <= x)%Q.
Proof.
  split; intro Hk.
  - apply Qle_trans with (inject_Z (Qfloor x)); [now rewrite <- Zle_Qle | apply Qfloor_le].
  - rewrite <- (Qfloor_Z k). now apply Qfloor_resp_le.
Qed.

Lemma Qfloor_lt (k : Z) (x : Q) : (Qfloor x < k)%Z <-> (x < inject_Z k)%Q.
Proof.
  pose proof (Qle_Qfloor k x) as Hk. split; intro H.
  - apply Qnot_le_lt. intro Hle. apply Hk in Hle. lia.
  - destruct (Z_lt_le_dec (Qfloor x) k) as [|Hle]; [assumption|].
    apply Hk in Hle. exfalso. now apply (Qlt_not_le _ _ H).
Qed.

Lemma Qltb_iff (x y : Q) : Qltb x y = true <-> (x < y)%Q.
Proof.
  unfold Qltb. rewrite negb_true_iff. split; intro H.
  - apply Qnot_le_lt. intro Hle. apply Qle_bool_iff in Hle. congruence.
  - destruct (Qle_bool y x) eqn:E; [|reflexivity].
    apply Qle_bool_iff in E. exfalso. now apply (Qlt_not_le _ _ H).
Qed.

(** The two predicates of the writer agree: an order lies in [0.5, 3.5)
    exactly when its nearest integer is 1, 2 or 3. *)
Lemma valence_band_emitted (o : Q) : valence_band o = emitted_order (std_round o).
Proof.
  unfold valence_band, emitted_order, std_round.
  destruct (Qle_bool 0 o) eqn:E0.
  - apply Qle_bool_iff in E0.
    destruct (Qle_bool (1 # 2) o) eqn:E1; destruct (Qltb o (7 # 2)) eqn:E2; cbn [andb];
      [apply Qle_bool_iff in E1; apply Qltb_iff in E2 | apply Qle_bool_iff in E1 |
       apply Qltb_iff in E2 | ]; symmetry.
    + apply andb_true_iff; split; [apply Z.ltb_lt | apply Z.ltb_lt].
      * enough (1 <= Qfloor (o + (1 # 2)))%Z by lia.
        apply Qle_Qfloor. unfold inject_Z. lra.
      * apply Qfloor_lt. unfold inject_Z. lra.
    + apply andb_false_iff; right. apply Z.ltb_ge. apply Qle_Qfloor.
      assert (~ (o < 7 # 2))%Q as Hn by (rewrite <- Qltb_iff; congruence).
      apply Qnot_lt_le in Hn. unfold inject_Z. lra.
    + apply andb_false_iff; left. apply Z.ltb_ge.
      assert (~ (1 # 2 <= o))%Q as Hn by (rewrite <- Qle_bool_iff; congruence).
      apply Qnot_le_lt in Hn. assert (Qfloor (o + (1 # 2)) < 1)%Z; [|lia].
      apply Qfloor_lt. unfold inject_Z. lra.
    + apply andb_false_iff; left. apply Z.ltb_ge.
      assert (~ (1 # 2 <= o))%Q as Hn by (rewrite <- Qle_bool_iff; congruence).
      apply Qnot_le_lt in Hn. assert (Qfloor (o + (1 # 2)) < 1)%Z; [|lia].
      apply Qfloor_lt. unfold inject_Z. lra.
  - assert (~ (0 <= o))%Q as Hn by (rewrite <- Qle_bool_iff; congruence).
    apply Qnot_le_lt in Hn.
    replace (Qle_bool (1 # 2) o) with false.
    2:{ symmetry. apply not_true_iff_false. rewrite Qle_bool_iff. lra. }
    cbn [andb]. symmetry. apply andb_false_iff; left. apply Z.ltb_ge.
    assert (0 <= Qfloor (- o + (1 # 2)))%Z; [|lia].
    apply (Qle_Qfloor 0). unfold inject_Z. lra.
Qed.

(* ------------------------------------------------------------------ *)
(** ** The pair loop of [write] *)

Lemma uint_small (z : Z) : 0 <= z < 2 ^ 32 -> uint z = z.
Proof. intro. unfold uint. now apply Z.mod_small. Qed.

Lemma atom_count_range {E} (atoms : AtomCollection E) : 0 <= atom_count atoms < 2 ^ 32.
Proof. unfold atom_count, uint. apply Z.mod_pos_bound. lia. Qed.

Lemma in_pair_loop (N : Z) (i j : nat) :
  0 <= N < 2 ^ 32 -> In (i, j) (pair_loop N) <-> (i < j < Z.to_nat N)%nat.
Proof.
  intro HN. unfold pair_loop. rewrite in_flat_map. split.
  - intros [i' [Hi' Hin]]. apply in_map_iff in Hin as [j' [Heq Hj']].
    injection Heq as <- <-. apply in_seq in Hj'. lia.
  - intros Hij. exists i. split.
    + apply in_seq. rewrite uint_small by lia. lia.
    + apply in_map_iff. exists j. split; [reflexivity|]. apply in_seq. lia.
Qed.

Lemma NoDup_map_pair (i : nat) (l : list nat) : NoDup l -> NoDup (map (fun j => (i, j)) l).
Proof.
  induction 1 as [|x l Hx Hl IH]; simpl; constructor; [|exact IH].
  intro Hin. apply in_map_iff in Hin as [y [Heq Hy]]. injection Heq as ->. contradiction.
Qed.

Lemma NoDup_pair_blocks (n a k : nat) :
  NoDup (flat_map (fun i => map (fun j => (i, j)) (seq (S i) (n - S i))) (seq a k)).
Proof.
  revert a. induction k as [|k IH]; intro a; simpl; [constructor|].
  apply NoDup_app; [apply NoDup_map_pair, seq_NoDup | apply IH |].
  intros [x y] H1 H2. apply in_map_iff in H1 as [y' [Heq _]]. injection Heq as <- <-.
  apply in_flat_map in H2 as [i [Hi Hin]]. apply in_seq in Hi.
  apply in_map_iff in Hin as [j [Heq _]]. injection Heq as -> ->. lia.
Qed.

Lemma NoDup_pair_loop (N : Z) : NoDup (pair_loop N).
Proof. apply NoDup_pair_blocks. Qed.

Lemma map_pair_of_selected {A B : Type} (f : A -> bool) (h : A -> B) (l : list A) :
  map fst (flat_map (fun p => if f p then [(p, h p)] else []) l) = filter f l.
Proof. induction l as [|p l IH]; simpl; [reflexivity|]. destruct (f p); simpl; now rewrite IH. Qed.

Lemma bond_entries_select (N : Z) (bo : BondOrderCollection) :
  bond_entries N (Some bo)
  = flat_map (fun p => if emitted_order (std_round (getOrder bo (Z.of_nat (fst p)) (Z.of_nat (snd p))))
                       then [(p, std_round (getOrder bo (Z.of_nat (fst p)) (Z.of_nat (snd p))))] else [])
             (pair_loop N).
Proof. unfold bond_entries. apply flat_map_ext. now intros [i j]. Qed.

Lemma emitted_order_iff (r : Z) : emitted_order r = true <-> (1 <= r <= 3)%Z.
Proof. unfold emitted_order. rewrite andb_true_iff, !Z.ltb_lt. lia. Qed.

Section WriterProofs.
Context {E : Type} `{EI : ElementInfo E}.
Variable angstrom_per_bohr : Q.

Lemma write_lines_split (atoms : AtomCollection E) (bo : option BondOrderCollection) fv now :
  write_lines angstrom_per_bohr atoms bo fv now
  = [name_line; program_line now; []; counts_line (atom_count atoms) (bond_count atoms bo) fv]
    ++ map (fun i => let a := nth i atoms default_atom in
                     atom_line angstrom_per_bohr (position a) (element a)
                               (nth i (count_valences (atom_count atoms) bo) 0))
           (seq 0 (Z.to_nat (atom_count atoms)))
    ++ map (fun '(i, j, bondOrder) => bond_line i j bondOrder) (bond_entries (atom_count atoms) bo).
Proof. reflexivity. Qed.

Lemma write_lines_bond_block (atoms : AtomCollection E) (bo : option BondOrderCollection) fv now :
  skipn (4 + Z.to_nat (atom_count atoms)) (write_lines angstrom_per_bohr atoms bo fv now)
  = map (fun '(i, j, bondOrder) => bond_line i j bondOrder) (bond_entries (atom_count atoms) bo).
Proof.
  rewrite write_lines_split. rewrite app_assoc, skipn_app.
  rewrite length_app, length_map, length_seq. simpl length.
  replace (4 + Z.to_nat (atom_count atoms) - (4 + Z.to_nat (atom_count atoms)))%nat with 0%nat by lia.
  rewrite skipn_all2; [reflexivity|]. rewrite length_app, length_map, length_seq. simpl. lia.
Qed.

(** C5: the bond block.  The lines after the header, counts line and atom
    lines are the bond lines of [bond_entries]; an entry (i, j, r) is there
    exactly when i < j < N, the order of {i, j} rounds to 1, 2 or 3 and r
    (the bond-type field) is that rounded value; no pair is written twice.
    An order of 3.5 rounds to 4 (no line), an order of 3.49999 to 3. *)
Theorem write_bond_lines_rounded :
  (forall (atoms : AtomCollection E) (bo : BondOrderCollection) fv now,
     skipn (4 + Z.to_nat (atom_count atoms)) (write_lines angstrom_per_bohr atoms (Some bo) fv now)
     = map (fun '(i, j, bondOrder) => bond_line i j bondOrder) (bond_entries (atom_count atoms) (Some bo)))
  /\ (forall (atoms : AtomCollection E) (bo : BondOrderCollection) (i j : nat) (r : Z),
        In (i, j, r) (bond_entries (atom_count atoms) (Some bo)) <->
        ((i < j < Z.to_nat (atom_count atoms))%nat
         /\ (1 <= std_round (getOrder bo (Z.of_nat i) (Z.of_nat j)) <= 3)%Z
         /\ r = std_round (getOrder bo (Z.of_nat i) (Z.of_nat j))))
  /\ (forall (atoms : AtomCollection E) (bo : BondOrderCollection),
        NoDup (map fst (bond_entries (atom_count atoms) (Some bo))))
  /\ std_round (7 # 2) = 4 /\ emitted_order (std_round (7 # 2)) = false
  /\ std_round (349999 # 100000) = 3 /\ emitted_order (std_round (349999 # 100000)) = true.
Proof.
  split; [intros; apply write_lines_bond_block|].
  split; [|split; [|repeat split; reflexivity]].
  - intros atoms bo i j r. rewrite bond_entries_select, in_flat_map. split.
    + intros [[i' j'] [Hp Hin]].
      apply in_pair_loop in Hp; [|apply atom_count_range].
      simpl in Hin. destruct (emitted_order _) eqn:Em; [|contradiction].
      destruct Hin as [Heq|[]]. injection Heq as <- <- <-.
      apply emitted_order_iff in Em. auto.
    + intros (Hij & Hr & ->). exists (i, j). split.
      * apply in_pair_loop; [apply atom_count_range | exact Hij].
      * simpl. apply emitted_order_iff in Hr. rewrite Hr. now left.
  - intros atoms bo. rewrite bond_entries_select, map_pair_of_selected.
    apply NoDup_filter, NoDup_pair_loop.
Qed.

End WriterProofs.

(* ------------------------------------------------------------------ *)
(** ** Valences and the bond count *)

Fixpoint sumZ (v : list Z) : Z :=
  match v with
  | [] => 0
  | x :: r => x + sumZ r
  end.

Lemma uint_add_uint_l (a b : Z) : uint (uint a + b) = uint (a + b).
Proof. unfold uint. apply Zplus_mod_idemp_l. Qed.

Lemma uint_add_uint_r (a b : Z) : uint (a + uint b) = uint (a + b).
Proof. unfold uint. apply Zplus_mod_idemp_r. Qed.

Lemma accumulate_uint_sum (v : list Z) : accumulate_uint v = uint (sumZ v).
Proof.
  unfold accumulate_uint.
  assert (forall a, fold_left (fun acc x => uint (acc + x)) v (uint a) = uint (a + sumZ v)) as G.
  { induction v as [|x v IH]; intro a; simpl.
    - now rewrite Z.add_0_r.
    - rewrite uint_add_uint_l, IH. f_equal. lia. }
  specialize (G 0). rewrite Z.add_0_l in G. exact G.
Qed.

Lemma length_list_inc (v : list Z) (k : nat) : length (list_inc v k) = length v.
Proof. revert k; induction v as [|x v IH]; intros [|k]; simpl; auto. Qed.

Lemma sum_list_inc (v : list Z) (k : nat) :
  (k < length v)%nat -> uint (sumZ (list_inc v k)) = uint (sumZ v + 1).
Proof.
  revert k; induction v as [|x v IH]; intros [|k] Hk; simpl in *; try lia.
  - rewrite uint_add_uint_l. f_equal. lia.
  - rewrite <- uint_add_uint_r, IH by lia. rewrite uint_add_uint_r. f_equal. lia.
Qed.

Lemma count_valences_fold (bo : BondOrderCollection) (l : list (nat * nat)) (v : list Z) :
  (forall i j, In (i, j) l -> (i < length v /\ j < length v)%nat) ->
  length (fold_left (fun v '(i, j) =>
                       if valence_band (getOrder bo (Z.of_nat i) (Z.of_nat j))
                       then list_inc (list_inc v i) j else v) l v) = length v
  /\ uint (sumZ (fold_left (fun v '(i, j) =>
                              if valence_band (getOrder bo (Z.of_nat i) (Z.of_nat j))
                              then list_inc (list_inc v i) j else v) l v))
     = uint (sumZ v + 2 * Z.of_nat (length (filter (fun '(i, j) =>
                              valence_band (getOrder bo (Z.of_nat i) (Z.of_nat j))) l))).
Proof.
  revert v; induction l as [|[i j] l IH]; intros v Hl; cbn [fold_left filter length].
  - split; [reflexivity|]. f_equal; lia.
  - assert (i < length v /\ j < length v)%nat as [Hi Hj] by (apply Hl; now left).
    destruct (valence_band _) eqn:Eb.
    + destruct (IH (list_inc (list_inc v i) j)) as [IH1 IH2].
      { intros i' j' Hin. rewrite !length_list_inc. apply Hl. now right. }
      rewrite !length_list_inc in IH1. split; [exact IH1|].
      rewrite IH2, <- uint_add_uint_l.
      rewrite sum_list_inc by (now rewrite length_list_inc).
      rewrite <- (uint_add_uint_l (sumZ (list_inc v i))), sum_list_inc by exact Hi.
      rewrite !uint_add_uint_l, <- Z.add_assoc, uint_add_uint_l. f_equal. cbn [length]. lia.
    + apply IH. intros i' j' Hin. apply Hl. now right.
Qed.

Lemma length_bond_entries (N : Z) (bo : BondOrderCollection) :
  length (bond_entries N (Some bo))
  = length (filter (fun '(i, j) => valence_band (getOrder bo (Z.of_nat i) (Z.of_nat j))) (pair_loop N)).
Proof.
  rewrite bond_entries_select, <- (length_map fst), map_pair_of_selected.
  f_equal. apply filter_ext. intros [i j]. simpl. now rewrite valence_band_emitted.
Qed.

Lemma uint_double_half (k : Z) : 0 <= k -> uint (2 * k) / 2 = k mod 2 ^ 31.
Proof.
  intro Hk. unfold uint. change (2 ^ 32) with (2 * 2 ^ 31).
  rewrite Z.mul_mod_distr_l by lia. rewrite Z.mul_comm, Z.div_mul by lia. reflexivity.
Qed.

Lemma sumZ_repeat_0 (n : nat) : sumZ (repeat 0 n) = 0.
Proof. induction n; simpl; auto. Qed.

Lemma bond_count_mod {E} (atoms : AtomCollection E) (bo : option BondOrderCollection) :
  bond_count atoms bo = Z.of_nat (length (bond_entries (atom_count atoms) bo)) mod 2 ^ 31.
Proof.
  unfold bond_count. rewrite accumulate_uint_sum.
  destruct bo as [bo|]; cbn [count_valences].
  - destruct (count_valences_fold bo (pair_loop (atom_count atoms)) (repeat 0 (Z.to_nat (atom_count atoms))))
      as [_ H2].
    { intros i j Hin. apply in_pair_loop in Hin; [|apply atom_count_range].
      rewrite repeat_length. lia. }
    rewrite H2, length_bond_entries, sumZ_repeat_0, Z.add_0_l. apply uint_double_half. lia.
  - now rewrite sumZ_repeat_0.
Qed.

Lemma length_pair_blocks (n k : nat) :
  (k <= n)%nat ->
  (2 * length (flat_map (fun i => map (fun j => (i, j)) (seq (S i) (n - S i))) (seq 0 k))
   + k * (k + 1) = 2 * n * k)%nat.
Proof.
  induction k as [|k IH]; intro Hk; [simpl; lia|].
  rewrite seq_S, flat_map_app, length_app. cbn [flat_map seq].
  rewrite app_nil_r, length_map, length_seq.
  specialize (IH ltac:(lia)). nia.
Qed.

Lemma length_pair_loop (N : Z) :
  1 <= N < 2 ^ 32 -> 2 * Z.of_nat (length (pair_loop N)) = N * (N - 1).
Proof.
  intro HN. unfold pair_loop. rewrite uint_small by lia.
  pose proof (length_pair_blocks (Z.to_nat N) (Z.to_nat (N - 1)) ltac:(lia)) as H.
  rewrite Z2Nat.inj_sub in H by lia. change (Z.to_nat 1) with 1%nat in H.
  rewrite Z2Nat.inj_sub by lia. change (Z.to_nat 1) with 1%nat.
  assert (1 <= Z.to_nat N)%nat by lia.
  apply (f_equal Z.of_nat) in H. rewrite Nat2Z.inj_add, !Nat2Z.inj_mul, Nat2Z.inj_add in H.
  rewrite Nat2Z.inj_sub in H by lia. rewrite Z2Nat.id in H by lia.
  change (Z.of_nat 2) with 2 in H. change (Z.of_nat 1) with 1 in H. nia.
Qed.

(** The bond count B of the counts line is the number of bond lines the
    writer emits, modulo 2^31: B is half a 32-bit unsigned sum. *)
Lemma counts_line_bond_count {E} `{ElementInfo E} (angstrom_per_bohr : Q)
    (atoms : AtomCollection E) (bo : option BondOrderCollection) fv now :
  nth 3 (write_lines angstrom_per_bohr atoms bo fv now) []
  = counts_line (atom_count atoms)
      (Z.of_nat (length (skipn (4 + Z.to_nat (atom_count atoms))
                              (write_lines angstrom_per_bohr atoms bo fv now))) mod 2 ^ 31) fv.
Proof.
  rewrite write_lines_bond_block, length_map, <- bond_count_mod. reflexivity.
Qed.

Lemma filter_all_true {A} (f : A -> bool) (l : list A) :
  (forall x, f x = true) -> filter f l = l.
Proof. intro Hf. induction l as [|x l IH]; simpl; [reflexivity|]. now rewrite Hf, IH. Qed.

Lemma atom_count_dense : atom_count dense_atoms = 65537.
Proof. unfold atom_count, dense_atoms. rewrite repeat_length, Z2Nat.id by lia. reflexivity. Qed.

(** C9 (code bug): the bond count B of the counts line is the number of bond
    lines the writer emits as long as fewer than 2^31 of them are written.
    Beyond that the unsigned 32-bit sum of the valences overflows: with 65537
    atoms and every pair at bond order 1 (a valid, non-negative bond order
    collection) the writer emits 2147516416 bond lines but the counts line
    carries B = 32768. *)
Theorem bond_count_overflow :
  (forall (E : Type) (HE : ElementInfo E) (angstrom_per_bohr : Q) (atoms : AtomCollection E)
          (bo : option BondOrderCollection) (fv : str) (now : tm),
     Z.of_nat (length (skipn (4 + Z.to_nat (atom_count atoms))
                             (write_lines angstrom_per_bohr atoms bo fv now))) < 2 ^ 31 ->
     nth 3 (write_lines angstrom_per_bohr atoms bo fv now) []
     = counts_line (atom_count atoms)
         (Z.of_nat (length (skipn (4 + Z.to_nat (atom_count atoms))
                                  (write_lines angstrom_per_bohr atoms bo fv now)))) fv)
  /\ (forall i j, 0 <= getOrder all_single_bonds i j)%Q
  /\ (forall (fv : str) (now : tm),
        Z.of_nat (length (skipn (4 + Z.to_nat (atom_count dense_atoms))
                   (write_lines sample_angstrom_per_bohr dense_atoms (Some all_single_bonds) fv now)))
        = 2147516416
        /\ nth 3 (write_lines sample_angstrom_per_bohr dense_atoms (Some all_single_bonds) fv now) []
           = counts_line 65537 32768 fv).
Proof.
  assert (HL : Z.of_nat (length (bond_entries (atom_count dense_atoms) (Some all_single_bonds)))
               = 2147516416).
  { rewrite length_bond_entries, atom_count_dense, filter_all_true.
    - pose proof (length_pair_loop 65537 ltac:(lia)). lia.
    - intros [i j]. reflexivity. }
  split; [|split].
  - intros E HE a atoms bo fv now Hlt.
    rewrite counts_line_bond_count, Z.mod_small by lia. reflexivity.
  - intros; cbn; discriminate.
  - intros fv now. rewrite write_lines_bond_block, length_map, HL. split; [reflexivity|].
    rewrite counts_line_bond_count, write_lines_bond_block, length_map, HL, atom_count_dense.
    reflexivity.
Qed.

(** With no atoms the outer loop runs [uint (0 - 1)] times, each time with an
    empty inner loop. *)
Lemma pair_loop_0 : pair_loop 0 = [].
Proof.
  apply incl_l_nil. intros [i j] Hin.
  pose proof (proj1 (in_pair_loop 0 i j ltac:(lia)) Hin) as Hij.
  rewrite Z2Nat.inj_0 in Hij. lia.
Qed.

(** C7: writing an empty atom collection, with or without bond orders, gives
    the three header lines, the counts line with N = 0 and B = 0, and "M END". *)
Theorem write_empty {E} `{ElementInfo E} (angstrom_per_bohr : Q)
    (bo : option BondOrderCollection) (fv : str) (now : tm) :
  write angstrom_per_bohr [] bo fv now
  = name_line ++ [nl] ++ program_line now ++ [nl] ++ [] ++ [nl]
    ++ counts_line 0 0 fv ++ [nl] ++ terminator.
Proof.
  unfold write, write_lines, bond_count.
  change (atom_count (@nil (Atom E))) with 0.
  assert (HB : bond_entries 0 bo = []) by (destruct bo; unfold bond_entries; now rewrite ?pair_loop_0).
  assert (HV : count_valences 0 bo = []) by (destruct bo; unfold count_valences; now rewrite ?pair_loop_0).
  rewrite HB, HV. cbn [seq map app concat Z.to_nat]. rewrite ?app_nil_r. cbn [app].
  repeat (rewrite <- !app_assoc; cbn [app]). reflexivity.
Qed.

(** C10: some input whose counts line and bond lines pass every length and
    conversion check has bond lines naming atom 0 and atom 5 of a two-atom
    molecule; [read] succeeds and records the orders at the unsigned indices
    0 - 1 = 4294967295 and 5 - 1 = 4, both outside [0, 2). *)
Theorem read_records_out_of_range_index :
  exists input atoms bo,
    read sample_angstrom_per_bohr input = Ok (atoms, bo) /\
    length atoms = 2%nat /\
    getOrder bo 4294967295 1 = 1%Q /\ getOrder bo 1 4294967295 = 1%Q /\
    getOrder bo 4 0 = 2%Q.
Proof.
  exists out_of_range_input.
  remember (read sample_angstrom_per_bohr out_of_range_input) as r eqn:Hr.
  vm_compute in Hr. subst r.
  eexists _, _. split; [reflexivity|]. vm_compute. repeat split.
Qed.

(** C3 (divergence): after a counts line with the tag "VXXXX" (neither
    "V2000" nor "V3000") and a bond count of 1, [read] skips the atom block
    but still parses the bond block and records order 1 for the pair (0, 1). *)
Theorem read_unknown_version_parses_bonds :
  exists atoms bo,
    read sample_angstrom_per_bohr unknown_version_input = Ok (atoms, bo) /\
    atoms = repeat default_atom 2 /\
    getOrder bo 0 1 = 1%Q.
Proof.
  remember (read sample_angstrom_per_bohr unknown_version_input) as r eqn:Hr.
  vm_compute in Hr. subst r.
  eexists _, _. split; [reflexivity|]. vm_compute. split; reflexivity.
Qed.

(** C2 (divergence): a V3000 counts line that is the last line of the input,
    with no newline after it, makes [read] fail with FormatMismatch, since
    [getline] set eofbit; with the newline the same input fails with
    UnsupportedVersion. *)
Theorem read_v3000_last_line :
  read sample_angstrom_per_bohr v3000_last_line_input = Err FormatMismatch /\
  read sample_angstrom_per_bohr (v3000_last_line_input ++ [nl]) = Err UnsupportedVersion.
Proof. split; vm_compute; reflexivity. Qed.

(** C4 (divergence): a qualifying V2000 counts line is accepted from the
    last line of the input, without a final newline, yet [read] fails with
    FormatMismatch; with the newline it succeeds with no atoms. *)
Theorem read_counts_last_line :
  read sample_angstrom_per_bohr v2000_last_line_input = Err FormatMismatch /\
  (exists bo, read sample_angstrom_per_bohr (v2000_last_line_input ++ [nl]) = Ok ([], bo)).
Proof.
  split; [vm_compute; reflexivity|].
  remember (read sample_angstrom_per_bohr (v2000_last_line_input ++ [nl])) as r eqn:Hr.
  vm_compute in Hr. subst r. eexists. reflexivity.
Qed.

(* ------------------------------------------------------------------ *)
(** ** The valence field *)

Lemma nth_list_inc (v : list Z) (m k : nat) :
  (k < length v)%nat ->
  nth k (list_inc v m) 0 = if Nat.eqb m k then uint (nth k v 0 + 1) else nth k v 0.
Proof.
  revert m k; induction v as [|x v IH]; intros [|m] [|k] Hk; cbn [list_inc nth length Nat.eqb] in *;
    try lia; try reflexivity. apply IH. lia.
Qed.

Lemma nth_fold_valences (bo : BondOrderCollection) (l : list (nat * nat)) (v : list Z) (k : nat) :
  (k < length v)%nat -> 0 <= nth k v 0 < 2 ^ 32 ->
  nth k (fold_left (fun v '(i, j) =>
                      if valence_band (getOrder bo (Z.of_nat i) (Z.of_nat j))
                      then list_inc (list_inc v i) j else v) l v) 0
  = uint (nth k v 0
          + Z.of_nat (length (filter (fun '(i, j) =>
                        valence_band (getOrder bo (Z.of_nat i) (Z.of_nat j)) && Nat.eqb i k) l)
                      + length (filter (fun '(i, j) =>
                        valence_band (getOrder bo (Z.of_nat i) (Z.of_nat j)) && Nat.eqb j k) l))).
Proof.
  revert v; induction l as [|[i j] l IH]; intros v Hk Hr; cbn [fold_left filter].
  - rewrite Z.add_0_r, uint_small; auto.
  - destruct (valence_band _) eqn:Eb; cbn [andb].
    + rewrite IH.
      2: now rewrite !length_list_inc.
      2: { rewrite !nth_list_inc by (rewrite ?length_list_inc; exact Hk).
           destruct (Nat.eqb j k), (Nat.eqb i k); unfold uint; auto using Z.mod_pos_bound;
             split; apply Z.mod_pos_bound; lia. }
      rewrite !nth_list_inc by (rewrite ?length_list_inc; exact Hk).
      destruct (Nat.eqb_spec j k), (Nat.eqb_spec i k); cbn [length];
        repeat progress (rewrite <- ?Z.add_assoc, ?uint_add_uint_l); f_equal; lia.
    + apply IH; assumption.
Qed.

Lemma same_elements_length {A} (l1 l2 : list A) :
  NoDup l1 -> NoDup l2 -> (forall x, In x l1 <-> In x l2) -> length l1 = length l2.
Proof.
  intros N1 N2 H. apply Nat.le_antisymm; apply NoDup_incl_length; auto; intros x; apply H.
Qed.

Lemma count_first (f : nat -> nat -> bool) (N : Z) (k : nat) :
  0 <= N < 2 ^ 32 ->
  length (filter (fun '(i, j) => f i j && Nat.eqb i k) (pair_loop N))
  = length (filter (fun j => Nat.ltb k j && f k j) (seq 0 (Z.to_nat N))).
Proof.
  intro HN.
  rewrite <- (length_map (fun j => (k, j)) (filter (fun j => Nat.ltb k j && f k j) (seq 0 (Z.to_nat N)))).
  apply same_elements_length.
  - apply NoDup_filter, NoDup_pair_loop.
  - apply Injective_map_NoDup; [intros x y Hxy; congruence|]. apply NoDup_filter, seq_NoDup.
  - intros [i j]. rewrite filter_In, in_pair_loop by exact HN. rewrite in_map_iff.
    split.
    + intros [Hij Hf]. apply andb_true_iff in Hf as [Hf Hik]. apply Nat.eqb_eq in Hik. subst i.
      exists j. split; [reflexivity|]. rewrite filter_In, in_seq, Hf, andb_true_r.
      split; [lia|]. apply Nat.ltb_lt. lia.
    + intros [j' [Heq Hin]]. injection Heq as <- <-. rewrite filter_In, in_seq in Hin.
      destruct Hin as [Hj Hf]. apply andb_true_iff in Hf as [Hkj Hf]. apply Nat.ltb_lt in Hkj.
      rewrite Hf, Nat.eqb_refl. split; [lia|reflexivity].
Qed.

Lemma count_second (f : nat -> nat -> bool) (N : Z) (k : nat) :
  0 <= N < 2 ^ 32 -> (k < Z.to_nat N)%nat ->
  length (filter (fun '(i, j) => f i j && Nat.eqb j k) (pair_loop N))
  = length (filter (fun i => Nat.ltb i k && f i k) (seq 0 (Z.to_nat N))).
Proof.
  intros HN Hk.
  rewrite <- (length_map (fun i => (i, k)) (filter (fun i => Nat.ltb i k && f i k) (seq 0 (Z.to_nat N)))).
  apply same_elements_length.
  - apply NoDup_filter, NoDup_pair_loop.
  - apply Injective_map_NoDup; [intros x y Hxy; congruence|]. apply NoDup_filter, seq_NoDup.
  - intros [i j]. rewrite filter_In, in_pair_loop by exact HN. rewrite in_map_iff.
    split.
    + intros [Hij Hf]. apply andb_true_iff in Hf as [Hf Hjk]. apply Nat.eqb_eq in Hjk. subst j.
      exists i. split; [reflexivity|]. rewrite filter_In, in_seq, Hf, andb_true_r.
      split; [lia|]. apply Nat.ltb_lt. lia.
    + intros [i' [Heq Hin]]. injection Heq as <- <-. rewrite filter_In, in_seq in Hin.
      destruct Hin as [Hi Hf]. apply andb_true_iff in Hf as [Hik Hf]. apply Nat.ltb_lt in Hik.
      rewrite Hf, Nat.eqb_refl. split; [lia|reflexivity].
Qed.

Lemma count_split (g : nat -> bool) (k : nat) (s : list nat) :
  (length (filter (fun j => Nat.ltb k j && g j) s) + length (filter (fun j => Nat.ltb j k && g j) s)
   = length (filter (fun j => negb (Nat.eqb j k) && g j) s))%nat.
Proof.
  induction s as [|j s IH]; [reflexivity|]. cbn [filter].
  destruct (Nat.ltb_spec k j), (Nat.ltb_spec j k), (Nat.eqb_spec j k), (g j);
    cbn [andb negb length]; lia.
Qed.

Lemma nth_count_valences (bo : BondOrderCollection) (N : Z) (k : nat) :
  0 <= N < 2 ^ 32 -> (k < Z.to_nat N)%nat ->
  (forall x y, getOrder bo x y = getOrder bo y x) ->
  nth k (count_valences N (Some bo)) 0
  = Z.of_nat (length (filter (fun j => negb (Nat.eqb j k)
                                       && valence_band (getOrder bo (Z.of_nat k) (Z.of_nat j)))
                             (seq 0 (Z.to_nat N)))).
Proof.
  intros HN Hk Hsym. unfold count_valences. cbv beta iota zeta.
  rewrite nth_fold_valences; rewrite ?repeat_length, ?nth_repeat; [|lia|lia].
  pose proof (count_first (fun i j => valence_band (getOrder bo (Z.of_nat i) (Z.of_nat j))) N k HN)
    as H1.
  pose proof (count_second (fun i j => valence_band (getOrder bo (Z.of_nat i) (Z.of_nat j))) N k HN Hk)
    as H2.
  cbv beta in H1, H2. rewrite H1, H2.
  rewrite (filter_ext (fun i => Nat.ltb i k && valence_band (getOrder bo (Z.of_nat i) (Z.of_nat k)))
                      (fun i => Nat.ltb i k && valence_band (getOrder bo (Z.of_nat k) (Z.of_nat i))))
    by (intro i; now rewrite Hsym).
  rewrite (count_split (fun j => valence_band (getOrder bo (Z.of_nat k) (Z.of_nat j)))).
  rewrite Z.add_0_l. apply uint_small.
  pose proof (filter_length_le (fun j => negb (Nat.eqb j k)
                                         && valence_band (getOrder bo (Z.of_nat k) (Z.of_nat j)))
                               (seq 0 (Z.to_nat N))).
  rewrite length_seq in *. lia.
Qed.

(** C6: with bond orders given (symmetric, as a BondOrderCollection is), the
    valence field of the atom line of atom i is the number of atoms j <> i
    whose order o with i satisfies 0.5 <= o < 3.5; 0.49999 is outside that
    band and 0.5 inside it. *)
Theorem atom_line_valence {E} `{ElementInfo E} (angstrom_per_bohr : Q)
    (atoms : AtomCollection E) (bo : BondOrderCollection) fv now (i : nat) :
  (forall x y, getOrder bo x y = getOrder bo y x) ->
  (i < Z.to_nat (atom_count atoms))%nat ->
  nth_error (write_lines angstrom_per_bohr atoms (Some bo) fv now) (4 + i)
  = Some (atom_line angstrom_per_bohr (position (nth i atoms default_atom))
            (element (nth i atoms default_atom))
            (Z.of_nat (length (filter (fun j => negb (Nat.eqb j i)
                                                && valence_band (getOrder bo (Z.of_nat i) (Z.of_nat j)))
                                      (seq 0 (Z.to_nat (atom_count atoms)))))))
  /\ valence_band (49999 # 100000) = false /\ valence_band (1 # 2) = true.
Proof.
  intros Hsym Hi. split; [|split; reflexivity].
  rewrite write_lines_split.
  rewrite nth_error_app2 by (cbn [length]; lia).
  replace (4 + i - length [name_line; program_line now; []; _])%nat with i by (cbn [length]; lia).
  rewrite nth_error_app1 by (rewrite length_map, length_seq; exact Hi).
  rewrite nth_error_map, nth_error_seq.
  destruct (Nat.ltb_spec i (Z.to_nat (atom_count atoms))); [|lia]. cbn [option_map].
  rewrite nth_count_valences; [reflexivity|apply atom_count_range|exact Hi|exact Hsym].
Qed.

Lemma atom_line_valence_witness :
  (forall x y, getOrder band_orders x y = getOrder band_orders y x) /\
  (1 < Z.to_nat (atom_count band_atoms))%nat /\
  nth_error (write_lines sample_angstrom_per_bohr band_atoms (Some band_orders) (lit "V2000") sample_now)
    (4 + 1)
  = Some (atom_line sample_angstrom_per_bohr (position (nth 1 band_atoms default_atom))
            (element (nth 1 band_atoms default_atom))
            (Z.of_nat (length (filter (fun j => negb (Nat.eqb j 1)
                                 && valence_band (getOrder band_orders (Z.of_nat 1) (Z.of_nat j)))
                               (seq 0 (Z.to_nat (atom_count band_atoms)))))))
  /\ valence_band (49999 # 100000) = false /\ valence_band (1 # 2) = true.
Proof.
  assert (Hs : forall x y, getOrder band_orders x y = getOrder band_orders y x)
    by (intros x y; cbn [getOrder band_orders]; now rewrite Z.add_comm).
  assert (Hi : (1 < Z.to_nat (atom_count band_atoms))%nat) by (vm_compute; lia).
  split; [exact Hs|]. split; [exact Hi|].
  exact (atom_line_valence sample_angstrom_per_bohr band_atoms band_orders (lit "V2000") sample_now 1 Hs Hi).
Defined.

(* ------------------------------------------------------------------ *)
(** ** Unknown element symbols *)

Lemma str_eqb_eq (a b : str) : str_eqb a b = true -> a = b.
Proof.
  revert b; induction a as [|c a IH]; intros [|d b]; cbn [str_eqb]; try discriminate; auto.
  intro Hb. apply andb_true_iff in Hb as [Hc Hb]. apply Ascii.eqb_eq in Hc. subst d.
  now rewrite (IH b Hb).
Qed.

(** A coordinate field whose [std::stod] outcome the model determines
    either throws (FormatMismatch) or gives a value. *)
Lemma stod_or_catch_cases (s : str) :
  stod s <> Unmodelled -> stod_or_catch s = Err FormatMismatch \/ exists v, stod_or_catch s = Ok v.
Proof.
  unfold stod_or_catch. destruct (stod s) as [v| |]; intro Hs; [right; eauto | left; reflexivity | congruence].
Qed.

Lemma read_atom_block_bad_line {E} `{ElementInfo E} (angstrom_per_bohr : Q)
    (m : nat) (st st' : istream) (line bad : str) (ok : bool) :
  getline st line = (st', bad, ok) ->
  stod (substr 0 10 bad) <> Unmodelled -> stod (substr 10 10 bad) <> Unmodelled ->
  stod (substr 20 10 bad) <> Unmodelled ->
  removeAllSpaces (substr 31 3 bad) <> [] ->
  lookup_symbol (removeAllSpaces (substr 31 3 bad)) = None ->
  read_atom_block angstrom_per_bohr (S m) st line = Err FormatMismatch.
Proof.
  intros Hg Hx Hy Hz Hne Hs. cbn [read_atom_block]. rewrite Hg.
  destruct (length bad <? 34)%nat; [reflexivity|].
  destruct (stod_or_catch_cases _ Hx) as [->|[x ->]]; [reflexivity|]. cbn [bind].
  destruct (stod_or_catch_cases _ Hy) as [->|[y ->]]; [reflexivity|]. cbn [bind].
  destruct (stod_or_catch_cases _ Hz) as [->|[z ->]]; [reflexivity|]. cbn [bind].
  unfold lookup_symbol in Hs.
  destruct (removeAllSpaces (substr 31 3 bad)) as [|c r]; [congruence|].
  cbn [normalize_symbol] in Hs |- *. rewrite Hs. reflexivity.
Qed.

Lemma read_atom_block_err_after {E} `{ElementInfo E} (angstrom_per_bohr : Q)
    (k n : nat) (st st1 : istream) (line l1 : str) (atoms : list (Atom E)) (e : ReadError) :
  read_atom_block angstrom_per_bohr k st line = Ok (atoms, st1, l1) ->
  read_atom_block angstrom_per_bohr n st1 l1 = Err e ->
  read_atom_block angstrom_per_bohr (k + n) st line = Err e.
Proof.
  revert st line atoms; induction k as [|k IH]; intros st line atoms Hk Hn.
  - cbn in Hk. injection Hk as <- <- <-. exact Hn.
  - cbn [read_atom_block Nat.add] in *.
    destruct (getline st line) as [[st' line'] b].
    destruct (length line' <? 34)%nat; [discriminate|].
    destruct (stod_or_catch (substr 0 10 line')); cbn [bind] in *; [|discriminate].
    destruct (stod_or_catch (substr 10 10 line')); cbn [bind] in *; [|discriminate].
    destruct (stod_or_catch (substr 20 10 line')); cbn [bind] in *; [|discriminate].
    destruct (normalize_symbol _); [|discriminate].
    destruct (elementTypeForSymbol _); [|discriminate].
    destruct (read_atom_block angstrom_per_bohr k st' line') as [[[atoms' st''] l'']|e'] eqn:Ek;
      cbn [bind] in Hk; [|discriminate].
    injection Hk as _ <- <-. rewrite (IH st' line' atoms' Ek Hn). reflexivity.
Qed.

(** When the counts line is a V2000 one, the first k atom lines are read,
    and the next atom line (k < atom count) has a symbol field that is not
    blank and does not resolve after removing spaces and normalising case,
    [read] fails with FormatMismatch, provided the model determines the
    [std::stod] outcome of the line's three coordinate fields. *)
Lemma read_unknown_symbol_line {E} `{ElementInfo E} (angstrom_per_bohr : Q)
    (input : str) (k : nat) (st : istream) (line : str) (atomBlockSize bondBlockSize : Z)
    (atoms : list (Atom E)) (st1 : istream) (l1 : str) (st2 : istream) (bad : str) (ok : bool) :
  after_counts input = (st, line, atomBlockSize, bondBlockSize) ->
  eof st = false ->
  str_eqb (removeAllSpaces (substr_from 33 line)) (lit "V2000") = true ->
  (k < Z.to_nat atomBlockSize)%nat ->
  read_atom_block angstrom_per_bohr k st line = Ok (atoms, st1, l1) ->
  getline st1 l1 = (st2, bad, ok) ->
  stod (substr 0 10 bad) <> Unmodelled -> stod (substr 10 10 bad) <> Unmodelled ->
  stod (substr 20 10 bad) <> Unmodelled ->
  removeAllSpaces (substr 31 3 bad) <> [] ->
  lookup_symbol (removeAllSpaces (substr 31 3 bad)) = None ->
  read angstrom_per_bohr input = Err FormatMismatch.
Proof.
  intros Hc Heof Hv Hk Hatoms Hg Hx Hy Hz Hne Hs.
  unfold read. unfold after_counts in Hc. rewrite Hc, Heof.
  apply str_eqb_eq in Hv. rewrite Hv. cbn [str_eqb lit list_ascii_of_string Ascii.eqb].
  replace (Z.to_nat atomBlockSize) with (k + S (Z.to_nat atomBlockSize - S k))%nat by lia.
  rewrite (read_atom_block_err_after angstrom_per_bohr k _ st st1 line l1 atoms FormatMismatch Hatoms
             (read_atom_block_bad_line angstrom_per_bohr _ st1 st2 l1 bad ok Hg Hx Hy Hz Hne Hs)).
  reflexivity.
Qed.

(** C8 (code bug): an atom line whose symbol field does not resolve makes
    [read] fail with FormatMismatch when the field is not blank (and the
    model determines the outcome of the coordinate fields), as at the symbol
    "Xx" of [unknown_symbol_input]; but when the three columns of the field
    are all spaces, the normalisation runs [std::transform] over
    [begin + 1, end) of an empty string and the behaviour is undefined, as
    for the one atom line of [blank_symbol_input]. *)
Theorem read_blank_symbol_undefined :
  (forall (E : Type) (HE : ElementInfo E) (angstrom_per_bohr : Q)
     (input : str) (k : nat) (st : istream) (line : str) (atomBlockSize bondBlockSize : Z)
     (atoms : list (Atom E)) (st1 : istream) (l1 : str) (st2 : istream) (bad : str) (ok : bool),
     after_counts input = (st, line, atomBlockSize, bondBlockSize) ->
     eof st = false ->
     str_eqb (removeAllSpaces (substr_from 33 line)) (lit "V2000") = true ->
     (k < Z.to_nat atomBlockSize)%nat ->
     read_atom_block angstrom_per_bohr k st line = Ok (atoms, st1, l1) ->
     getline st1 l1 = (st2, bad, ok) ->
     stod (substr 0 10 bad) <> Unmodelled -> stod (substr 10 10 bad) <> Unmodelled ->
     stod (substr 20 10 bad) <> Unmodelled ->
     removeAllSpaces (substr 31 3 bad) <> [] ->
     lookup_symbol (removeAllSpaces (substr 31 3 bad)) = None ->
     read angstrom_per_bohr input = Err FormatMismatch)
  /\ read sample_angstrom_per_bohr unknown_symbol_input = Err FormatMismatch
  /\ removeAllSpaces (substr 31 3 (lit blank_symbol_line)) = []
  /\ read sample_angstrom_per_bohr blank_symbol_input = Err UndefinedBehaviour.
Proof.
  split; [intros E HE; apply read_unknown_symbol_line|].
  split; [|split; vm_compute; reflexivity].
  set (c := after_counts unknown_symbol_input).
  set (b := read_atom_block sample_angstrom_per_bohr 1 (fst (fst (fst c))) (snd (fst (fst c)))).
  set (rb := match b with Ok r => r | Err _ => ([], mkIstream [] true, []) end).
  set (g := getline (snd (fst rb)) (snd rb)).
  apply (read_unknown_symbol_line sample_angstrom_per_bohr unknown_symbol_input 1
           (fst (fst (fst c))) (snd (fst (fst c))) (snd (fst c)) (snd c)
           (fst (fst rb)) (snd (fst rb)) (snd rb) (fst (fst g)) (snd (fst g)) (snd g));
    vm_compute; first [reflexivity | discriminate].
Qed.

(* ------------------------------------------------------------------ *)
(** ** Decimal digits *)

Lemma digit_char_spec (d : Z) :
  0 <= d <= 9 -> is_digit (digit_char d) = true /\ digit_val (digit_char d) = d.
Proof.
  intro Hd.
  assert (d = 0 \/ d = 1 \/ d = 2 \/ d = 3 \/ d = 4 \/ d = 5 \/ d = 6 \/ d = 7 \/ d = 8 \/ d = 9)
    as Hc by lia.
  repeat destruct Hc as [-> | Hc]; [..|subst d]; split; reflexivity.
Qed.

Lemma dec_digits_all_digits (f : nat) (n : Z) : all_digits (dec_digits f n).
Proof.
  revert n; induction f as [|f IH]; intro n; cbn [dec_digits]; [constructor|].
  apply Forall_app. split.
  - destruct (n <? 10); [constructor|apply IH].
  - constructor; [|constructor]. apply digit_char_spec. pose proof (Z.mod_pos_bound n 10). lia.
Qed.

Lemma to_dec_all_digits (n : Z) : all_digits (to_dec n).
Proof. apply dec_digits_all_digits. Qed.

Lemma fold_digits (l : str) (acc : Z) :
  fold_left (fun acc c => 10 * acc + digit_val c) l acc
  = acc * 10 ^ Z.of_nat (length l) + digits_value l.
Proof.
  unfold digits_value. revert acc; induction l as [|c l IH]; intro acc; cbn [fold_left length].
  - lia.
  - rewrite IH, (IH (10 * 0 + digit_val c)). rewrite Nat2Z.inj_succ, Z.pow_succ_r by lia. lia.
Qed.

Lemma digits_value_app (l1 l2 : str) :
  digits_value (l1 ++ l2) = digits_value l1 * 10 ^ Z.of_nat (length l2) + digits_value l2.
Proof. unfold digits_value at 1. rewrite fold_left_app. apply fold_digits. Qed.

Lemma digits_value_zeros (k : nat) (l : str) : digits_value (repeat "0"%char k ++ l) = digits_value l.
Proof.
  rewrite digits_value_app.
  replace (digits_value (repeat "0"%char k)) with 0; [lia|].
  induction k as [|k IH]; [reflexivity|]. unfold digits_value in *. cbn [repeat fold_left].
  exact IH.
Qed.

Lemma digits_value_single (c : ascii) : digits_value [c] = digit_val c.
Proof. unfold digits_value. cbn [fold_left]. lia. Qed.

Lemma dec_digits_spec (f : nat) (k : Z) (n : Z) :
  (1 <= f)%nat -> 0 <= n < 10 ^ Z.of_nat f ->
  digits_value (dec_digits f n) = n /\ (1 <= length (dec_digits f n))%nat
  /\ (1 <= k -> n < 10 ^ k -> (length (dec_digits f n) <= Z.to_nat k)%nat).
Proof.
  revert n k; induction f as [|f IH]; intros n k Hf Hn; [lia|].
  cbn [dec_digits]. rewrite digits_value_app, length_app, digits_value_single. cbn [length].
  pose proof (Z.mod_pos_bound n 10) as Hm.
  destruct (digit_char_spec (n mod 10) ltac:(lia)) as [_ Hv]. rewrite Hv.
  destruct (Z.ltb_spec n 10) as [Hlt|Hge].
  - cbn [length]. rewrite Z.mod_small by lia. split; [reflexivity|]. split; [lia|]. intros; lia.
  - assert (Hf' : (1 <= f)%nat).
    { destruct f; [|lia]. cbn in Hn. lia. }
    rewrite Nat2Z.inj_succ, Z.pow_succ_r in Hn by lia.
    destruct (IH (n / 10) (k - 1) Hf') as [IH1 [IH2 IH3]]; [split; [apply Z.div_pos|apply Z.div_lt_upper_bound]; lia|].
    rewrite IH1. split; [cbn; pose proof (Z.div_mod n 10); lia|]. split; [lia|].
    intros Hk Hnk.
    assert (Hk1 : 1 <= k - 1).
    { destruct (Z.le_gt_cases k 1); [|lia]. assert (k = 1) by lia. subst k. lia. }
    assert (n / 10 < 10 ^ (k - 1)).
    { apply Z.div_lt_upper_bound; [lia|]. replace (10 * 10 ^ (k - 1)) with (10 ^ k); [lia|].
      rewrite <- Z.pow_succ_r by lia. f_equal. lia. }
    specialize (IH3 Hk1 H). lia.
Qed.

Lemma to_dec_spec (n : Z) :
  0 <= n ->
  digits_value (to_dec n) = n /\ (1 <= length (to_dec n))%nat
  /\ (forall k, 1 <= k -> n < 10 ^ k -> (length (to_dec n) <= Z.to_nat k)%nat).
Proof.
  intro Hn. unfold to_dec.
  assert (Hb : 0 <= n < 10 ^ Z.of_nat (S (Z.to_nat (Z.log2 n)))).
  { split; [exact Hn|]. rewrite Nat2Z.inj_succ, Z2Nat.id by apply Z.log2_nonneg.
    apply Z.lt_le_trans with (2 ^ Z.succ (Z.log2 n)).
    - destruct (Z.eq_dec n 0) as [->|Hn0]; [reflexivity|]. apply Z.log2_spec. lia.
    - apply Z.pow_le_mono_l. pose proof (Z.log2_nonneg n). lia. }
  split; [apply (dec_digits_spec _ 1); [lia|exact Hb]|].
  split; [apply (dec_digits_spec _ 1); [lia|exact Hb]|].
  intros k Hk Hnk. apply (dec_digits_spec _ k); [lia|exact Hb|exact Hk|exact Hnk].
Qed.

(* ------------------------------------------------------------------ *)
(** ** Fixed notation with four decimals *)

Lemma Qltb_false (x y : Q) : Qltb x y = false -> (y <= x)%Q.
Proof.
  intro H. apply Qnot_lt_le. intro Hlt. apply Qltb_iff in Hlt. congruence.
Qed.

Lemma round_half_even_spec (y : Q) :
  (inject_Z (round_half_even y) - (1 # 2) <= y <= inject_Z (round_half_even y) + (1 # 2))%Q.
Proof.
  unfold round_half_even. cbv zeta.
  pose proof (Qfloor_le y) as H1. pose proof (Qlt_floor y) as H2.
  revert H1 H2. generalize (Qfloor y) as f. intros f H1 H2.
  rewrite inject_Z_plus in H2. change (inject_Z 1) with 1%Q in H2.
  destruct (Qltb (y - inject_Z f) (1 # 2)) eqn:E1; [apply Qltb_iff in E1; lra|apply Qltb_false in E1].
  destruct (Qltb (1 # 2) (y - inject_Z f)) eqn:E2;
    [apply Qltb_iff in E2|apply Qltb_false in E2; destruct (Z.even f)];
    rewrite ?inject_Z_plus; try change (inject_Z 1) with 1%Q; lra.
Qed.

Lemma round_half_even_range (y : Q) (M : Z) :
  (0 <= y)%Q -> (y < inject_Z M)%Q -> 0 <= round_half_even y <= M.
Proof.
  intros H0 HM. pose proof (round_half_even_spec y) as [Hl Hu].
  split.
  - destruct (Z_lt_le_dec (round_half_even y) 0) as [Hn|]; [|assumption].
    assert (inject_Z (round_half_even y) <= inject_Z (-1))%Q by (rewrite <- Zle_Qle; lia).
    change (inject_Z (-1)) with (-1)%Q in H. lra.
  - destruct (Z_lt_le_dec M (round_half_even y)) as [Hn|]; [|assumption].
    assert (inject_Z (M + 1) <= inject_Z (round_half_even y))%Q by (rewrite <- Zle_Qle; lia).
    rewrite inject_Z_plus in H. change (inject_Z 1) with 1%Q in H. lra.
Qed.
Lemma digit_not_special (c : ascii) :
  is_digit c = true ->
  isspace c = false /\ Ascii.eqb c "-"%char = false /\ Ascii.eqb c "+"%char = false
  /\ Ascii.eqb c "."%char = false /\ Ascii.eqb c nl = false /\ Ascii.eqb c spc = false.
Proof.
  intro Hd. unfold is_digit in Hd. apply andb_true_iff in Hd as [H1 H2].
  apply Nat.leb_le in H1. apply Nat.leb_le in H2.
  assert (Hne : forall d, (nat_of_ascii d < 48 \/ 57 < nat_of_ascii d)%nat -> Ascii.eqb c d = false).
  { intros d Hdd. apply Ascii.eqb_neq. intros ->. lia. }
  repeat split; try (apply Hne; vm_compute; lia).
  unfold isspace. replace (nat_of_ascii c) with (48 + (nat_of_ascii c - 48))%nat by lia.
  reflexivity.
Qed.

Lemma take_while_app_all (p : ascii -> bool) (l r : str) :
  Forall (fun c => p c = true) l -> take_while p (l ++ r) = l ++ take_while p r.
Proof. intro H. induction H as [|c l Hc _ IH]; [reflexivity|]. cbn. rewrite Hc, IH. reflexivity. Qed.

Lemma take_while_all (p : ascii -> bool) (l : str) :
  Forall (fun c => p c = true) l -> take_while p l = l.
Proof. intro H. rewrite <- (app_nil_r l) at 1. rewrite take_while_app_all by exact H. now rewrite app_nil_r. Qed.

Lemma skipn_length_app {A} (l r : list A) : skipn (length l) (l ++ r) = r.
Proof. induction l; [reflexivity|]. exact IHl. Qed.

Lemma fixed_prefix (k : nat) (neg : bool) (d : ascii) (R : str) :
  is_digit d = true ->
  let s := repeat spc k ++ (if neg then ["-"%char] else []) ++ d :: R in
  take_sign (skipn (length (take_while isspace s)) s) = (neg, (if neg then 1 else 0)%nat, d :: R).
Proof.
  intros Hd s. subst s.
  destruct (digit_not_special d Hd) as [Hs [Hm [Hp _]]].
  assert (Hsp : Forall (fun c => isspace c = true) (repeat spc k)).
  { apply Forall_forall. intros c Hc. apply repeat_spec in Hc. now subst c. }
  rewrite take_while_app_all by exact Hsp.
  replace (take_while isspace ((if neg then ["-"%char] else []) ++ d :: R)) with (@nil ascii)
    by (destruct neg; cbn; [reflexivity|now rewrite Hs]).
  rewrite app_nil_r, skipn_length_app.
  destruct neg; cbn; [reflexivity|now rewrite Hm, Hp].
Qed.

Lemma strtod_decimal_fixed (k : nat) (neg : bool) (D F : str) :
  D <> [] -> all_digits D -> all_digits F ->
  strtod_decimal (repeat spc k ++ (if neg then ["-"%char] else []) ++ D ++ "."%char :: F)
  = Some (if neg then (- (inject_Z (digits_value (D ++ F)) * Qpower 10 (0 - Z.of_nat (length F))))%Q
          else (inject_Z (digits_value (D ++ F)) * Qpower 10 (0 - Z.of_nat (length F)))%Q).
Proof.
  intros HD HdD HdF. destruct D as [|d D']; [congruence|].
  pose proof (Forall_inv HdD) as Hd. cbv beta in Hd.
  unfold strtod_decimal. cbv zeta.
  change ((d :: D') ++ "."%char :: F) with (d :: (D' ++ "."%char :: F)).
  rewrite (fixed_prefix k neg d (D' ++ "."%char :: F) Hd).
  cbv beta iota zeta.
  assert (Hdot' : is_digit "."%char = false) by reflexivity.
  change (d :: (D' ++ "."%char :: F)) with ((d :: D') ++ "."%char :: F).
  rewrite take_while_app_all by exact HdD. cbn [take_while]. rewrite Hdot', app_nil_r.
  rewrite skipn_length_app.
  replace (Ascii.eqb "."%char "."%char) with true by reflexivity.
  rewrite (take_while_all is_digit F HdF), skipn_all. cbv beta iota zeta.
  reflexivity.
Qed.

Lemma digit_or_dot_cases (c : ascii) :
  (is_digit c || Ascii.eqb c "."%char) = true ->
  existsb (Ascii.eqb c) (lit "0123456789.") = true.
Proof.
  intro H. apply orb_true_iff in H as [H|H].
  - unfold is_digit in H. apply andb_true_iff in H as [H1 H2]. apply Nat.leb_le in H1, H2.
    rewrite <- (ascii_nat_embedding c). revert H1 H2. generalize (nat_of_ascii c) as n. intros n H1 H2.
    do 48 (destruct n as [|n]; [lia|]). do 10 (destruct n as [|n]; [reflexivity|]). lia.
  - apply Ascii.eqb_eq in H. subst c. reflexivity.
Qed.

(** A digit followed by a digit or '.' starts none of strtod's other forms. *)
Lemma strtod_other_form_digits (d c : ascii) (r : str) :
  is_digit d = true -> (is_digit c || Ascii.eqb c "."%char) = true ->
  strtod_other_form (d :: c :: r) = false.
Proof.
  intros Hd Hc.
  assert (Hd' : existsb (Ascii.eqb d) (lit "0123456789") = true).
  { pose proof (digit_or_dot_cases d ltac:(now rewrite Hd)) as H.
    destruct (Ascii.eqb d "."%char) eqn:E; [apply Ascii.eqb_eq in E; subst d; discriminate|].
    revert H E. cbn [lit list_ascii_of_string existsb]. rewrite !orb_false_r.
    intros H E. rewrite E, orb_false_r in H. exact H. }
  apply digit_or_dot_cases in Hc.
  cbn [lit list_ascii_of_string existsb] in Hd', Hc.
  repeat (apply orb_true_iff in Hd' as [Hd'|Hd']; [apply Ascii.eqb_eq in Hd'; subst d|]);
    try discriminate;
  repeat (apply orb_true_iff in Hc as [Hc|Hc]; [apply Ascii.eqb_eq in Hc; subst c; reflexivity|]);
    discriminate.
Qed.

(** Fixed notation that [stod] parses to a value in the normal range. *)
Lemma stod_fixed (k : nat) (neg : bool) (D F : str) :
  D <> [] -> all_digits D -> all_digits F ->
  let v := (if neg then (- (inject_Z (digits_value (D ++ F)) * Qpower 10 (0 - Z.of_nat (length F))))%Q
            else (inject_Z (digits_value (D ++ F)) * Qpower 10 (0 - Z.of_nat (length F)))%Q) in
  (Qeq_bool v 0 = true \/ (dbl_min <= Qabs v /\ Qabs v < dbl_overflow)%Q) ->
  stod (repeat spc k ++ (if neg then ["-"%char] else []) ++ D ++ "."%char :: F) = Parsed v.
Proof.
  intros HD HdD HdF v Hv. destruct D as [|d D']; [congruence|].
  pose proof (Forall_inv HdD) as Hd. cbv beta in Hd.
  unfold stod. change ((d :: D') ++ "."%char :: F) with (d :: (D' ++ "."%char :: F)).
  rewrite (fixed_prefix k neg d (D' ++ "."%char :: F) Hd).
  cbv beta iota.
  assert (Ho : strtod_other_form (d :: (D' ++ "."%char :: F)) = false).
  { destruct D' as [|c D'']; cbn [app].
    - apply strtod_other_form_digits; [exact Hd | reflexivity].
    - apply strtod_other_form_digits; [exact Hd|].
      apply Forall_inv_tail, Forall_inv in HdD. now rewrite HdD. }
  rewrite Ho. change (d :: (D' ++ "."%char :: F)) with ((d :: D') ++ "."%char :: F).
  rewrite (strtod_decimal_fixed k neg (d :: D') F HD HdD HdF). fold v.
  destruct (Qeq_bool v 0) eqn:E0; [reflexivity|].
  destruct Hv as [Hv|[H1 H2]]; [congruence|].
  replace (Qltb (Qabs v) dbl_min) with false by (symmetry; apply negb_false_iff, Qle_bool_iff, H1).
  replace (Qltb (Qabs v) dbl_overflow) with true by (symmetry; apply Qltb_iff, H2).
  reflexivity.
Qed.


Lemma pad_zero_spec (n : Z) :
  0 <= n < 10000 ->
  length (pad_zero 4 (to_dec n)) = 4%nat /\ all_digits (pad_zero 4 (to_dec n))
  /\ digits_value (pad_zero 4 (to_dec n)) = n.
Proof.
  intro Hn. destruct (to_dec_spec n ltac:(lia)) as [Hv [_ Hl]]. specialize (Hl 4 ltac:(lia) ltac:(lia)).
  unfold pad_zero. rewrite length_app, repeat_length, digits_value_zeros, Hv.
  change (Z.to_nat 4) with 4%nat in Hl. split; [lia|]. split; [|reflexivity].
  apply Forall_app. split; [|apply to_dec_all_digits].
  apply Forall_forall. intros c Hc. apply repeat_spec in Hc. now subst c.
Qed.

Lemma dbl_min_small : (dbl_min <= 1 # 10000)%Q.
Proof. unfold dbl_min. vm_compute. intro H; discriminate. Qed.

Lemma dbl_overflow_large : (inject_Z (10 ^ 9) < dbl_overflow)%Q.
Proof. unfold dbl_overflow. vm_compute. reflexivity. Qed.

(** A coordinate printed with four decimals in its ten columns is parsed
    back by [stod] to within half a unit of the fourth decimal. *)
Lemma put_fixed4_parse (x : Q) :
  fits_fixed10 x ->
  (length (put_fixed4 x) <= 10)%nat /\
  exists v, stod (setw 10 (put_fixed4 x)) = Parsed v /\ (Qabs (v - x) <= 1 # 20000)%Q.
Proof.
  intros [Hlo Hhi]. unfold put_fixed4.
  pose proof (round_half_even_spec (Qabs x * 10000)) as Hr.
  revert Hr. generalize (round_half_even (Qabs x * 10000)) as m. intros m Hr.
  assert (Hax : (0 <= Qabs x)%Q) by apply Qabs_nonneg.
  set (K := if Qltb x 0 then 4%nat else 5%nat).
  assert (Hm0 : 0 <= m).
  { destruct (Z_lt_le_dec m 0) as [Hn|]; [|assumption].
    assert (inject_Z m <= inject_Z (-1))%Q by (rewrite <- Zle_Qle; lia).
    change (inject_Z (-1)) with (-1)%Q in H. lra. }
  assert (HmK : m < 10 ^ (Z.of_nat K + 4)).
  { unfold K. destruct (Qltb x 0) eqn:Ex.
    - apply Qltb_iff in Ex. rewrite Qabs_neg in Hr by lra.
      assert (inject_Z m < inject_Z (10 ^ 8))%Q
        by (change (inject_Z (10 ^ 8)) with 100000000%Q; lra).
      rewrite <- Zlt_Qlt in H. exact H.
    - apply Qltb_false in Ex. rewrite Qabs_pos in Hr by lra.
      assert (inject_Z m < inject_Z (10 ^ 9))%Q
        by (change (inject_Z (10 ^ 9)) with 1000000000%Q; lra).
      rewrite <- Zlt_Qlt in H. exact H. }
  assert (Hm9 : m < 10 ^ 9).
  { apply Z.lt_le_trans with (1 := HmK). apply Z.pow_le_mono_r; [lia|]. unfold K. destruct (Qltb x 0); lia. }
  destruct (to_dec_spec (m / 10000)) as [HvD [HlD1 HlD]]; [apply Z.div_pos; lia|].
  assert (HD : (length (to_dec (m / 10000)) <= K)%nat).
  { specialize (HlD (Z.of_nat K)). rewrite Nat2Z.id in HlD.
    apply HlD; [unfold K; destruct (Qltb x 0); lia|].
    apply Z.div_lt_upper_bound; [lia|]. rewrite Z.pow_add_r in HmK by lia.
    change (10 ^ 4) with 10000 in HmK. lia. }
  destruct (pad_zero_spec (m mod 10000)) as [HlF [HdF HvF]]; [apply Z.mod_pos_bound; lia|].
  assert (Hdv : digits_value (to_dec (m / 10000) ++ pad_zero 4 (to_dec (m mod 10000))) = m).
  { rewrite digits_value_app, HlF, HvD, HvF. change (10 ^ Z.of_nat 4) with 10000.
    pose proof (Z.div_mod m 10000). lia. }
  change (["."%char] ++ ?F) with ("."%char :: F).
  split.
  - rewrite !length_app. cbn [length]. rewrite HlF. unfold K in HD. destruct (Qltb x 0); cbn [length]; lia.
  - unfold setw. rewrite stod_fixed.
    + eexists. split; [reflexivity|].
      rewrite HlF, Hdv.
      replace (Qpower 10 (0 - Z.of_nat 4)) with (1 # 10000)%Q by reflexivity.
      apply Qabs_Qle_condition.
      destruct (Qltb x 0) eqn:Ex; [apply Qltb_iff in Ex; rewrite Qabs_neg in Hr by lra
                                   |apply Qltb_false in Ex; rewrite Qabs_pos in Hr by lra];
        lra.
    + intro Hnil. rewrite Hnil in HlD1. cbn in HlD1. lia.
    + apply to_dec_all_digits.
    + exact HdF.
    + cbv zeta. rewrite HlF, Hdv.
      replace (Qpower 10 (0 - Z.of_nat 4)) with (1 # 10000)%Q by reflexivity.
      destruct (Z.eq_dec m 0) as [->|Hmz]; [left; destruct (Qltb x 0); reflexivity|right].
      assert (Hq : (inject_Z 1 <= inject_Z m)%Q) by (rewrite <- Zle_Qle; lia).
      change (inject_Z 1) with 1%Q in Hq.
      assert (Hq9 : (inject_Z m < inject_Z (10 ^ 9))%Q) by (rewrite <- Zlt_Qlt; exact Hm9).
      assert (Habs : (Qabs (if Qltb x 0 then - (inject_Z m * (1 # 10000)) else inject_Z m * (1 # 10000))
                      == inject_Z m * (1 # 10000))%Q).
      { destruct (Qltb x 0); [rewrite Qabs_opp|]; apply Qabs_pos; lra. }
      rewrite Habs. pose proof dbl_min_small. pose proof dbl_overflow_large.
      change (inject_Z (10 ^ 9)) with 1000000000%Q in *. split; lra.
Qed.

(* ------------------------------------------------------------------ *)
(** ** Lines of text *)

Lemma nl_free_app (a b : str) : nl_free (a ++ b) = nl_free a && nl_free b.
Proof. apply forallb_app. Qed.

Lemma nl_free_cons (c : ascii) (s : str) : nl_free (c :: s) = negb (Ascii.eqb c nl) && nl_free s.
Proof. reflexivity. Qed.

Lemma nl_free_repeat (c : ascii) (k : nat) : Ascii.eqb c nl = false -> nl_free (repeat c k) = true.
Proof. intro Hc. induction k as [|k IH]; [reflexivity|]. cbn [repeat]. now rewrite nl_free_cons, Hc, IH. Qed.

Lemma nl_free_digits (s : str) : all_digits s -> nl_free s = true.
Proof.
  intro H. induction H as [|c s Hc _ IH]; [reflexivity|]. rewrite nl_free_cons.
  destruct (digit_not_special c Hc) as [_ [_ [_ [_ [Hn _]]]]]. now rewrite Hn, IH.
Qed.

Lemma nl_free_setw (w : nat) (s : str) : nl_free s = true -> nl_free (setw w s) = true.
Proof. intro H. unfold setw. rewrite nl_free_app, H, nl_free_repeat; reflexivity. Qed.

Lemma nl_free_to_dec (n : Z) : nl_free (to_dec n) = true.
Proof. apply nl_free_digits, to_dec_all_digits. Qed.

Lemma nl_free_put_unsigned (w : nat) (n : Z) : nl_free (put_unsigned w n) = true.
Proof. apply nl_free_setw, nl_free_to_dec. Qed.

Lemma nl_free_pad_zero (w : nat) (s : str) : nl_free s = true -> nl_free (pad_zero w s) = true.
Proof. intro H. unfold pad_zero. rewrite nl_free_app, H, nl_free_repeat; reflexivity. Qed.

Lemma nl_free_put_fixed4 (x : Q) : nl_free (put_fixed4 x) = true.
Proof.
  unfold put_fixed4. rewrite !nl_free_app, nl_free_to_dec, nl_free_pad_zero by apply nl_free_to_dec.
  destruct (Qltb x 0); reflexivity.
Qed.

Lemma nl_free_concat_repeat (s : str) (k : nat) : nl_free s = true -> nl_free (concat (repeat s k)) = true.
Proof. intro H. induction k as [|k IH]; [reflexivity|]. cbn [repeat concat]. now rewrite nl_free_app, H, IH. Qed.

Lemma break_line_app (l r : str) : nl_free l = true -> break_line (l ++ nl :: r) = Some (l, r).
Proof.
  induction l as [|c l IH]; intro H; [reflexivity|].
  rewrite nl_free_cons in H. apply andb_true_iff in H as [Hc H]. apply negb_true_iff in Hc.
  cbn [app break_line]. rewrite Hc, IH by exact H. reflexivity.
Qed.

Lemma getline_line (l r line : str) :
  nl_free l = true -> getline (mkIstream (l ++ nl :: r) false) line = (mkIstream r false, l, true).
Proof.
  intro H. unfold getline. cbn [eof rest]. rewrite break_line_app by exact H.
  destruct l; reflexivity.
Qed.

Lemma skipLine_line (l r : str) :
  nl_free l = true -> skipLine (mkIstream (l ++ nl :: r) false) = mkIstream r false.
Proof. intro H. unfold skipLine. cbn [eof rest]. rewrite break_line_app by exact H. reflexivity. Qed.

Lemma join_lines_cons (l : str) (ls : list str) (r : str) :
  join_lines (l :: ls) ++ r = l ++ nl :: (join_lines ls ++ r).
Proof. unfold join_lines. cbn [map concat]. now rewrite <- !app_assoc. Qed.

Lemma join_lines_app (ls1 ls2 : list str) : join_lines (ls1 ++ ls2) = join_lines ls1 ++ join_lines ls2.
Proof. unfold join_lines. now rewrite map_app, concat_app. Qed.

(** The three-character fields [put_unsigned 3 n], for every [n] the writer
    puts there, read back by [stoul] with all three characters converted. *)
Lemma stoul_put_unsigned3 (n : Z) :
  0 <= n <= 999 -> stoul (put_unsigned 3 n) = Some (n, 3%nat) /\ length (put_unsigned 3 n) = 3%nat.
Proof.
  intro Hn.
  assert (H : forallb (fun k => match stoul (put_unsigned 3 (Z.of_nat k)) with
                                | Some (v, c) => (v =? Z.of_nat k) && Nat.eqb c 3
                                | None => false
                                end && Nat.eqb (length (put_unsigned 3 (Z.of_nat k))) 3)
                      (seq 0 1000) = true) by (vm_compute; reflexivity).
  rewrite forallb_forall in H. specialize (H (Z.to_nat n) ltac:(apply in_seq; lia)).
  rewrite Z2Nat.id in H by lia.
  destruct (stoul (put_unsigned 3 n)) as [[v c]|]; [|discriminate].
  apply andb_true_iff in H as [H1 H2]. apply andb_true_iff in H1 as [H1 H3].
  apply Z.eqb_eq in H1. apply Nat.eqb_eq in H2. apply Nat.eqb_eq in H3. subst. auto.
Qed.

Lemma lookup_symbol_some {E} `{ElementInfo E} (s : str) (e : E) :
  lookup_symbol s = Some e -> exists s', normalize_symbol s = Some s' /\ elementTypeForSymbol s' = Some e.
Proof. unfold lookup_symbol. destruct (normalize_symbol s) as [s'|]; [eauto|discriminate]. Qed.

(** One round of [read_atom_block] on a line of [atom_line_read]. *)
Ltac read_atom_line Hx Hy Hz He :=
  unfold stod_or_catch; rewrite Hx, Hy, Hz; cbn [bind];
  let s' := fresh "s'" in let Hn := fresh "Hn" in let He' := fresh "He'" in
  destruct (lookup_symbol_some _ _ He) as [s' [Hn He']]; rewrite Hn, He'.

Lemma read_atom_block_lines {E} `{ElementInfo E} (angstrom_per_bohr : Q)
    (ls : list str) (ats : list (Atom E)) (r line : str) :
  Forall2 (atom_line_read angstrom_per_bohr) ls ats ->
  exists line', read_atom_block angstrom_per_bohr (length ls) (mkIstream (join_lines ls ++ r) false) line
                = Ok (ats, mkIstream r false, line').
Proof.
  intro HF. revert line. induction HF as [|l at' ls ats Hl _ IH]; intro line.
  - exists line. reflexivity.
  - destruct Hl as [Hnl [Hlen [x [y [z [Hx [Hy [Hz [He Hp]]]]]]]]].
    rewrite join_lines_cons. cbn [length read_atom_block]. rewrite getline_line by exact Hnl.
    replace (length l <? 34)%nat with false by (symmetry; apply Nat.ltb_ge; exact Hlen).
    read_atom_line Hx Hy Hz He.
    destruct (IH l) as [line' IHl]. rewrite IHl. cbn [bind]. exists line'.
    destruct at' as [e p]. cbn in Hp. subst p. reflexivity.
Qed.

Lemma read_bond_block_lines
    (ls : list str) (es : list (Z * Z * Z)) (r line : str) (bo0 : BondOrderCollection) :
  Forall2 bond_line_read ls es ->
  exists line', read_bond_block (length ls) (mkIstream (join_lines ls ++ r) false) line bo0
                = Ok (fold_left (fun b '(x, y, o) => setOrder b x y (inject_Z o)) es bo0,
                      mkIstream r false, line').
Proof.
  intro HF. revert line bo0. induction HF as [|l [[x y] o] ls es Hl _ IH]; intros line bo0.
  - exists line. reflexivity.
  - destruct Hl as [Hnl [Hlen [va [vb [Ha [Hb [Ho [-> [-> Ho4]]]]]]]]].
    rewrite join_lines_cons. cbn [length read_bond_block]. rewrite getline_line by exact Hnl.
    replace (length l <? 9)%nat with false by (symmetry; apply Nat.ltb_ge; exact Hlen).
    rewrite Ha, Hb, Ho. cbv beta iota zeta.
    rewrite (uint_small o) by lia.
    replace ((0 <? o) && (o <? 4)) with true by (symmetry; apply andb_true_iff; split; apply Z.ltb_lt; lia).
    apply IH.
Qed.

Lemma substr_skip (A C : str) (i n : nat) :
  (length A <= i)%nat -> substr i n (A ++ C) = substr (i - length A) n C.
Proof. intro H. unfold substr. rewrite skipn_app, skipn_all2 by exact H. reflexivity. Qed.

Lemma substr_prefix (B C : str) (n : nat) : length B = n -> substr 0 n (B ++ C) = B.
Proof. intros <-. unfold substr. cbn [skipn]. rewrite firstn_app, firstn_all, Nat.sub_diag. apply app_nil_r. Qed.

Lemma length_setw (w : nat) (s : str) : (length s <= w)%nat -> length (setw w s) = w.
Proof. intro H. unfold setw. rewrite length_app, repeat_length. lia. Qed.

Lemma removeAllSpaces_setw (w : nat) (s : str) :
  removeAllSpaces s = s -> removeAllSpaces (setw w s) = s.
Proof.
  intro H. unfold setw, removeAllSpaces in *. rewrite filter_app, H.
  replace (filter (fun c => negb (Ascii.eqb c spc)) (repeat spc (w - length s))) with (@nil ascii);
    [reflexivity|].
  induction (w - length s)%nat as [|k IH]; [reflexivity|]. exact IH.
Qed.

Lemma Qabs_scale (a v q t : Q) :
  (0 < a)%Q -> (Qabs (v - q * a) <= t)%Q -> (Qabs (v * / a - q) <= t / a)%Q.
Proof.
  intros Ha Hv.
  assert (Heq : (v * / a - q == (v - q * a) * / a)%Q) by (field; intro H0; rewrite H0 in Ha; discriminate).
  rewrite Heq, Qabs_Qmult, (Qabs_pos (/ a)) by (apply Qlt_le_weak, Qinv_lt_0_compat, Ha).
  unfold Qdiv. apply Qmult_le_compat_r; [exact Hv|]. apply Qlt_le_weak, Qinv_lt_0_compat, Ha.
Qed.

(** What [read] makes of an atom line of [write]. *)
Lemma atom_line_reads {E} `{ElementInfo E} (a : Q) (p : Position) (e : E) (v : Z) :
  (0 < a)%Q ->
  fits_fixed10 (px p * a) -> fits_fixed10 (py p * a) -> fits_fixed10 (pz p * a) ->
  nl_free (symbol e) = true -> removeAllSpaces (symbol e) = symbol e -> (length (symbol e) <= 3)%nat ->
  lookup_symbol (symbol e) = Some e ->
  exists at',
    atom_line_read a (atom_line a p e v) at'
    /\ element at' = e
    /\ (Qabs (px (position at') - px p) <= (1 # 20000) / a)%Q
    /\ (Qabs (py (position at') - py p) <= (1 # 20000) / a)%Q
    /\ (Qabs (pz (position at') - pz p) <= (1 # 20000) / a)%Q.
Proof.
  intros Ha Hx Hy Hz Hnl Hsp Hlen Hsym.
  destruct (put_fixed4_parse (px p * a) Hx) as [Lx [vx [Sx Bx]]].
  destruct (put_fixed4_parse (py p * a) Hy) as [Ly [vy [Sy By]]].
  destruct (put_fixed4_parse (pz p * a) Hz) as [Lz [vz [Sz Bz]]].
  exists (mkAtom e (mkPosition (vx * bohr_per_angstrom a) (vy * bohr_per_angstrom a) (vz * bohr_per_angstrom a))).
  cbn [element position px py pz]. unfold bohr_per_angstrom.
  split; [|split; [reflexivity|split; [|split]]; apply Qabs_scale; assumption].
  apply length_setw in Lx, Ly, Lz. unfold atom_line_read.
  assert (L3 : length (setw 3 (symbol e)) = 3%nat) by (apply length_setw; exact Hlen).
  unfold atom_line. split; [|split; [|exists vx, vy, vz; split; [|split; [|split; [|split]]]]].
  - rewrite !nl_free_app. repeat rewrite nl_free_setw by first [apply nl_free_put_fixed4 | exact Hnl].
    rewrite !nl_free_put_unsigned, !nl_free_concat_repeat by apply nl_free_put_unsigned. reflexivity.
  - rewrite !length_app, Lx, Ly, Lz, L3. cbn [length]. lia.
  - rewrite substr_prefix by exact Lx. exact Sx.
  - rewrite substr_skip, Lx by lia. rewrite substr_prefix by exact Ly. exact Sy.
  - rewrite substr_skip, Lx by lia. rewrite substr_skip, Ly by lia.
    rewrite substr_prefix by exact Lz. exact Sz.
  - rewrite substr_skip, Lx by lia. rewrite substr_skip, Ly by lia. rewrite substr_skip, Lz by lia.
    rewrite substr_skip by (cbn [length]; lia). cbn [length Nat.sub].
    rewrite substr_prefix by exact L3. rewrite removeAllSpaces_setw by exact Hsp. exact Hsym.
  - reflexivity.
Qed.

(** What [read] makes of a bond line of [write]. *)
Lemma bond_line_reads (i j : nat) (r : Z) :
  (i < 999)%nat -> (j < 999)%nat -> 1 <= r <= 3 ->
  bond_line_read (bond_line i j r) (Z.of_nat i, Z.of_nat j, r).
Proof.
  intros Hi Hj Hr.
  destruct (stoul_put_unsigned3 (1 + Z.of_nat i)) as [Si Li]; [lia|].
  destruct (stoul_put_unsigned3 (1 + Z.of_nat j)) as [Sj Lj]; [lia|].
  destruct (stoul_put_unsigned3 r) as [Sr Lr]; [lia|].
  unfold bond_line_read, bond_line. split; [|split; [|exists (1 + Z.of_nat i), (1 + Z.of_nat j)]].
  - rewrite !nl_free_app, !nl_free_put_unsigned, nl_free_concat_repeat by apply nl_free_put_unsigned.
    reflexivity.
  - rewrite !length_app, Li, Lj, Lr. lia.
  - split; [rewrite substr_prefix by exact Li; exact Si|].
    split; [rewrite substr_skip, Li by lia; rewrite substr_prefix by exact Lj; exact Sj|].
    split; [rewrite substr_skip, Li by lia; rewrite substr_skip, Lj by lia;
            rewrite substr_prefix by exact Lr; exact Sr|].
    rewrite !(uint_small (1 + _)) by lia. rewrite !uint_small by lia. lia.
Qed.

Lemma write_join {E} `{ElementInfo E} (a : Q) atoms bo fv now :
  write a atoms bo fv now = join_lines (write_lines a atoms bo fv now) ++ terminator.
Proof. reflexivity. Qed.

Lemma join_lines_four (l1 l2 l3 l4 : str) (X : list str) (r : str) :
  join_lines ([l1; l2; l3; l4] ++ X) ++ r = l1 ++ nl :: l2 ++ nl :: l3 ++ nl :: l4 ++ nl :: (join_lines X ++ r).
Proof. cbn [app]. rewrite !join_lines_cons. reflexivity. Qed.

Lemma nl_free_program_line (t : tm) : nl_free (program_line t) = true.
Proof.
  unfold program_line, put_time_mdyHM.
  rewrite !nl_free_app, !nl_free_pad_zero by apply nl_free_to_dec. reflexivity.
Qed.

Lemma counts_line_reads (N B : Z) :
  0 <= N <= 999 -> 0 <= B <= 999 ->
  nl_free (counts_line N B (lit "V2000")) = true /\ (38 <= length (counts_line N B (lit "V2000")))%nat /\
  stoul (substr 0 3 (counts_line N B (lit "V2000"))) = Some (N, 3%nat) /\
  stoul (substr 3 3 (counts_line N B (lit "V2000"))) = Some (B, 3%nat) /\
  removeAllSpaces (substr_from 33 (counts_line N B (lit "V2000"))) = lit "V2000".
Proof.
  intros HN HB.
  destruct (stoul_put_unsigned3 N HN) as [SN LN]. destruct (stoul_put_unsigned3 B HB) as [SB LB].
  assert (L8 : length (concat (repeat (put_unsigned 3 0) 8)) = 24%nat) by reflexivity.
  assert (L9 : length (put_unsigned 3 999) = 3%nat) by reflexivity.
  unfold counts_line. split; [|split; [|split; [|split]]].
  - rewrite !nl_free_app, !nl_free_put_unsigned, nl_free_concat_repeat by apply nl_free_put_unsigned.
    reflexivity.
  - rewrite !length_app, LN, LB, L8, L9. cbn. lia.
  - rewrite substr_prefix by exact LN. exact SN.
  - rewrite substr_skip, LN by lia. rewrite substr_prefix by exact LB. exact SB.
  - unfold substr_from. rewrite !app_assoc, skipn_app, skipn_all2 by (rewrite !length_app; lia).
    rewrite !length_app, LN, LB, L8, L9. cbn [Nat.sub app skipn Nat.add].
    apply removeAllSpaces_setw. reflexivity.
Qed.

Lemma scan_counts_first (f : nat) (l r line : str) (A B va vb : Z) :
  nl_free l = true -> (38 <= length l)%nat ->
  stoul (substr 0 3 l) = Some (va, 3%nat) -> stoul (substr 3 3 l) = Some (vb, 3%nat) ->
  scan_counts (S f) (mkIstream (l ++ nl :: r) false) line A B = (mkIstream r false, l, uint va, uint vb).
Proof.
  intros Hnl Hlen Ha Hb. cbn [scan_counts]. rewrite getline_line by exact Hnl. cbn [negb].
  replace (length l <? 38)%nat with false by (symmetry; apply Nat.ltb_ge; exact Hlen).
  rewrite Ha, Hb. reflexivity.
Qed.

Lemma Forall2_of_exists {A B} (T : A -> B -> Prop) (l : list A) :
  (forall x, In x l -> exists y, T x y) -> exists ys, Forall2 T l ys.
Proof.
  induction l as [|x l IH]; intro H; [exists []; constructor|].
  destruct (H x (or_introl eq_refl)) as [y Hy].
  destruct IH as [ys Hys]; [intros x' Hx'; apply H; now right|].
  exists (y :: ys). now constructor.
Qed.

Lemma Forall2_map_l {A A' B} (f : A -> A') (R : A' -> B -> Prop) (l : list A) (ys : list B) :
  Forall2 (fun x y => R (f x) y) l ys -> Forall2 R (map f l) ys.
Proof. induction 1; constructor; assumption. Qed.

Lemma Forall2_flip_map {A B C} (g : A -> C) (R : B -> C -> Prop) (l : list A) (ys : list B) :
  Forall2 (fun x y => R y (g x)) l ys -> Forall2 R ys (map g l).
Proof. induction 1; constructor; assumption. Qed.

Lemma Forall2_and_l {A B} (R S : A -> B -> Prop) (l : list A) (ys : list B) :
  Forall2 (fun x y => R x y /\ S x y) l ys -> Forall2 R l ys /\ Forall2 S l ys.
Proof. induction 1 as [|x y l ys [Hr Hs] _ [IH1 IH2]]; split; constructor; assumption. Qed.

Lemma map_nth_seq_self {A} (d : A) (l : list A) : map (fun i => nth i l d) (seq 0 (length l)) = l.
Proof.
  induction l as [|x l IH]; [reflexivity|]. cbn [length seq map nth]. f_equal.
  rewrite <- seq_shift, map_map. exact IH.
Qed.

Lemma Forall2_map_map {A B C} (f : A -> B) (g : A -> C) (R : B -> C -> Prop) (l : list A) :
  (forall x, In x l -> R (f x) (g x)) -> Forall2 R (map f l) (map g l).
Proof.
  induction l as [|x l IH]; intro H; constructor.
  - apply H. now left.
  - apply IH. intros x' Hx'. apply H. now right.
Qed.

(** [setOrder] over a list of entries: the order of the pair {p, q} is [v]
    when every entry for that pair carries [v] and either there is one or
    the start already had [v]. *)
Lemma fold_setOrder_pair (es : list (Z * Z * Z)) (b0 : BondOrderCollection) (p q v : Z) :
  (forall x y o, In (x, y, o) es -> (p = x /\ q = y) \/ (p = y /\ q = x) -> o = v) ->
  getOrder b0 p q = inject_Z v \/ (exists x y, In (x, y, v) es /\ ((p = x /\ q = y) \/ (p = y /\ q = x))) ->
  getOrder (fold_left (fun b '(x, y, o) => setOrder b x y (inject_Z o)) es b0) p q = inject_Z v.
Proof.
  revert b0. induction es as [|[[x y] o] es IH]; intros b0 Hall Hex; cbn [fold_left].
  - destruct Hex as [H0|[x [y [[] _]]]]. exact H0.
  - apply IH; [intros x' y' o' Hin; apply Hall; now right|].
    cbn [getOrder setOrder].
    destruct (((p =? x) && (q =? y)) || ((p =? y) && (q =? x)))%bool eqn:Em.
    + left. rewrite (Hall x y o (or_introl eq_refl)); [reflexivity|].
      apply orb_true_iff in Em as [Em|Em]; apply andb_true_iff in Em as [E1 E2];
        apply Z.eqb_eq in E1, E2; auto.
    + destruct Hex as [H0|[x' [y' [[Heq|Hin] Hm]]]]; [now left| |right; eauto].
      injection Heq as <- <- <-. exfalso.
      apply orb_false_iff in Em as [E1 E2]. apply andb_false_iff in E1, E2.
      rewrite !Z.eqb_neq in E1, E2. lia.
Qed.

Lemma std_round_range (o : Q) : (0 <= o)%Q -> (o < 7 # 2)%Q -> 0 <= std_round o <= 3.
Proof.
  intros H0 H1. unfold std_round.
  replace (Qle_bool 0 o) with true by (symmetry; apply Qle_bool_iff; exact H0).
  split.
  - apply (Qle_Qfloor 0). unfold inject_Z. lra.
  - enough (Qfloor (o + (1 # 2)) < 4) by lia. apply Qfloor_lt. unfold inject_Z. lra.
Qed.

(** On [0, 3.5], [std::round] gives 0 to 4, and 4 only at 3.5. *)
Lemma std_round_upto (o : Q) :
  (0 <= o)%Q -> (o <= 7 # 2)%Q ->
  0 <= std_round o <= 4 /\ (std_round o = 4 <-> Qeq_bool o (7 # 2) = true).
Proof.
  intros H0 H1. destruct (Qlt_le_dec o (7 # 2)) as [Hlt|Hge].
  - pose proof (std_round_range o H0 Hlt) as Hr. split; [lia|]. split; [lia|].
    intro Heq. apply Qeq_bool_iff in Heq. rewrite Heq in Hlt. discriminate.
  - assert (Heq : (o == 7 # 2)%Q) by (apply Qle_antisym; assumption).
    assert (H4 : std_round o = 4).
    { unfold std_round. replace (Qle_bool 0 o) with true by (symmetry; apply Qle_bool_iff; exact H0).
      rewrite Heq. reflexivity. }
    split; [lia|]. split; [intros _; apply Qeq_bool_iff, Heq | intros _; exact H4].
Qed.

Lemma in_bond_entries {E} (atoms : AtomCollection E) (bo : BondOrderCollection) (i j : nat) (r : Z) :
  In (i, j, r) (bond_entries (atom_count atoms) (Some bo)) <->
  ((i < j < Z.to_nat (atom_count atoms))%nat
   /\ 1 <= std_round (getOrder bo (Z.of_nat i) (Z.of_nat j)) <= 3
   /\ r = std_round (getOrder bo (Z.of_nat i) (Z.of_nat j))).
Proof.
  rewrite bond_entries_select, in_flat_map. split.
  - intros [[i' j'] [Hp Hin]].
    apply in_pair_loop in Hp; [|apply atom_count_range].
    simpl in Hin. destruct (emitted_order _) eqn:Em; [|contradiction].
    destruct Hin as [Heq|[]]. injection Heq as <- <- <-.
    apply emitted_order_iff in Em. auto.
  - intros (Hij & Hr & ->). exists (i, j). split.
    + apply in_pair_loop; [apply atom_count_range | exact Hij].
    + simpl. apply emitted_order_iff in Hr. rewrite Hr. now left.
Qed.

(** C1 (amended): writing atoms with a bond-order collection in the V2000
    format and reading the text back gives the same elements in the same
    order, every coordinate within 5e-5 angstrom, that is 5e-5 /
    angstrom_per_bohr bohr (about 9.45e-5 bohr), of the original, and for
    every pair of distinct atoms the nearest integer of its order, except
    that an order of exactly 3.5 (which rounds to 4, for which no bond line
    is written) is read back as 0.  This holds for at most 999 atoms and
    999 bond lines (the three-column fields), coordinates whose fixed
    notation fits its ten columns (above -9999.99995 and below 99999.99995
    angstrom), symbols of at most three characters that the element table
    maps back, a symmetric collection and orders in [0, 3.5]. *)
Theorem write_read_roundtrip {E} `{ElementInfo E} (a : Q) (atoms : AtomCollection E)
    (bo : BondOrderCollection) (now : tm) :
  (0 < a)%Q ->
  (length atoms <= 999)%nat ->
  Forall (atom_writable a) atoms ->
  (forall i j, getOrder bo i j = getOrder bo j i) ->
  (forall i j : nat, (i < j < length atoms)%nat ->
     (0 <= getOrder bo (Z.of_nat i) (Z.of_nat j) <= 7 # 2)%Q) ->
  (length (bond_entries (atom_count atoms) (Some bo)) <= 999)%nat ->
  exists atoms' bo',
    read a (write a atoms (Some bo) (lit "V2000") now) = Ok (atoms', bo')
    /\ Forall2 (atom_close a) atoms' atoms
    /\ forall i j : nat, (i < length atoms)%nat -> (j < length atoms)%nat -> i <> j ->
         getOrder bo' (Z.of_nat i) (Z.of_nat j)
         = if Qeq_bool (getOrder bo (Z.of_nat i) (Z.of_nat j)) (7 # 2) then 0%Q
           else inject_Z (std_round (getOrder bo (Z.of_nat i) (Z.of_nat j))).
Proof.
  intros Ha HN Hw Hsym Hrange HB.
  assert (HcN : atom_count atoms = Z.of_nat (length atoms)) by (unfold atom_count; apply uint_small; lia).
  assert (HcB : bond_count atoms (Some bo) = Z.of_nat (length (bond_entries (atom_count atoms) (Some bo))))
    by (rewrite bond_count_mod; apply Z.mod_small; lia).
  assert (Hes : forall i j r, In (i, j, r) (bond_entries (atom_count atoms) (Some bo)) ->
                  (i < j < length atoms)%nat /\ 1 <= r <= 3 /\
                  r = std_round (getOrder bo (Z.of_nat i) (Z.of_nat j))).
  { intros i j r Hin. apply in_bond_entries in Hin as (Hij & Hr & ->). rewrite HcN, Nat2Z.id in Hij. auto. }
  set (es := bond_entries (atom_count atoms) (Some bo)) in *.
  set (vs := count_valences (atom_count atoms) (Some bo)).
  (* the bond orders read back *)
  set (h := fun e : nat * nat * Z => let '(i, j, r) := e in (Z.of_nat i, Z.of_nat j, r)).
  assert (Hbo : forall b0, (forall p q, getOrder b0 p q = 0%Q) ->
            forall i j : nat, (i < length atoms)%nat -> (j < length atoms)%nat -> i <> j ->
            getOrder (fold_left (fun b '(x, y, o) => setOrder b x y (inject_Z o)) (map h es) b0)
                     (Z.of_nat i) (Z.of_nat j)
            = if Qeq_bool (getOrder bo (Z.of_nat i) (Z.of_nat j)) (7 # 2) then 0%Q
              else inject_Z (std_round (getOrder bo (Z.of_nat i) (Z.of_nat j)))).
  { intros b0 Hb0 i j Hi Hj Hij.
    set (o := getOrder bo (Z.of_nat i) (Z.of_nat j)).
    assert (Ho : (0 <= o <= 7 # 2)%Q).
    { unfold o. destruct (Nat.lt_ge_cases i j) as [Hlt|Hge];
        [apply Hrange; lia | rewrite Hsym; apply Hrange; lia]. }
    destruct (std_round_upto o (proj1 Ho) (proj2 Ho)) as [Hv Hiff].
    replace (if Qeq_bool o (7 # 2) then 0%Q else inject_Z (std_round o))
      with (inject_Z (if std_round o =? 4 then 0 else std_round o))
      by (destruct (Qeq_bool o (7 # 2)), (Z.eqb_spec (std_round o) 4) as [E4|E4]; try reflexivity;
          first [exfalso; apply E4, Hiff; reflexivity | apply Hiff in E4; discriminate]).
    apply fold_setOrder_pair.
    - intros x y r Hin Hm. apply in_map_iff in Hin as [[[i' j'] r'] [Heq Hin']].
      cbn in Heq. injection Heq as <- <- <-. apply Hes in Hin' as (_ & Hr & ->).
      assert (Hio : std_round (getOrder bo (Z.of_nat i') (Z.of_nat j')) = std_round o).
      { unfold o. destruct Hm as [[E1 E2]|[E1 E2]]; apply Nat2Z.inj in E1, E2; subst;
          [reflexivity|now rewrite Hsym]. }
      rewrite Hio in Hr |- *. destruct (Z.eqb_spec (std_round o) 4); [lia|reflexivity].
    - destruct (Z.eqb_spec (std_round o) 4) as [H4|H4]; [left; apply Hb0|].
      destruct (Z.eq_dec (std_round o) 0) as [H0|H0].
      + left. rewrite Hb0, H0. reflexivity.
      + right. destruct (Nat.lt_ge_cases i j) as [Hlt|Hge].
        * exists (Z.of_nat i), (Z.of_nat j). split; [|left; auto].
          apply in_map_iff. exists (i, j, std_round o).
          split; [reflexivity|]. apply in_bond_entries. rewrite HcN, !Nat2Z.id. unfold o in *.
          repeat split; lia.
        * exists (Z.of_nat j), (Z.of_nat i). split; [|right; auto].
          apply in_map_iff. exists (j, i, std_round o).
          split; [reflexivity|]. apply in_bond_entries. rewrite HcN, Nat2Z.id. unfold o in *.
          rewrite <- Hsym. repeat split; lia. }
  (* the text *)
  destruct (counts_line_reads (atom_count atoms) (bond_count atoms (Some bo))) as (Cnl & Clen & CN & CB & CV);
    [lia|lia|].
  unfold read. rewrite write_join, write_lines_split, join_lines_four.
  rewrite skipLine_line by reflexivity. rewrite skipLine_line by apply nl_free_program_line.
  rewrite skipLine_line by reflexivity.
  rewrite scan_counts_first with (va := atom_count atoms) (vb := bond_count atoms (Some bo)) by assumption.
  cbv beta iota zeta delta [eof]. rewrite CV.
  replace (str_eqb (lit "V2000") (lit "V3000")) with false by reflexivity.
  replace (str_eqb (lit "V2000") (lit "V2000")) with true by reflexivity.
  cbv iota.
  rewrite !(uint_small (atom_count atoms)) by (apply atom_count_range).
  rewrite (uint_small (bond_count atoms (Some bo))) by lia.
  rewrite HcB. fold es vs. rewrite HcN, !Nat2Z.id.
  (* the atom lines *)
  set (f := fun i => let at0 := nth i atoms default_atom in
                     atom_line a (position at0) (element at0) (nth i vs 0)).
  destruct (Forall2_of_exists (fun i at' => atom_line_read a (f i) at' /\ atom_close a at' (nth i atoms default_atom))
              (seq 0 (length atoms))) as [ats HF].
  { intros i Hi. apply in_seq in Hi.
    assert (Hwi : atom_writable a (nth i atoms default_atom)) by (apply Forall_nth; [exact Hw | lia]).
    destruct Hwi as (Hl & Hsp & Hnl & Hlen & Hx & Hy & Hz).
    destruct (atom_line_reads a (position (nth i atoms default_atom)) (element (nth i atoms default_atom))
                (nth i vs 0) Ha Hx Hy Hz Hnl Hsp Hlen Hl) as [at' [Hr [He [Cx [Cy Cz]]]]].
    exists at'. split; [exact Hr|]. repeat split; assumption. }
  apply Forall2_and_l in HF as [HF1 HF2].
  apply (Forall2_map_l f (atom_line_read a)) in HF1.
  apply (Forall2_flip_map (fun i => nth i atoms default_atom) (atom_close a)) in HF2.
  rewrite map_nth_seq_self in HF2.
  (* the bond lines *)
  set (g := fun e : nat * nat * Z => let '(i, j, r) := e in bond_line i j r).
  assert (HG : Forall2 bond_line_read (map g es) (map h es)).
  { apply Forall2_map_map. intros [[i j] r] Hin. apply Hes in Hin as (Hij & Hr & _).
    apply bond_line_reads; lia. }
  rewrite join_lines_app, <- app_assoc.
  destruct (read_atom_block_lines a _ _ (join_lines (map g es) ++ terminator)
              (counts_line (Z.of_nat (length atoms)) (Z.of_nat (length es)) (lit "V2000")) HF1) as [line' RA].
  rewrite length_map, length_seq in RA. rewrite RA. cbn [bind]. cbv beta iota.
  destruct (read_bond_block_lines (map g es) (map h es) terminator line'
              (resize emptyBondOrders (Z.of_nat (length atoms))) HG) as [line'' RB].
  rewrite length_map in RB.
  exists ats.
  destruct (0 <? Z.of_nat (length es)) eqn:Hpos.
  - rewrite RB. cbn [bind]. eexists. split; [reflexivity|]. split; [exact HF2|].
    apply Hbo. intros; reflexivity.
  - eexists. split; [reflexivity|]. split; [exact HF2|].
    destruct es as [|e es']; [|cbn [length] in Hpos; apply Z.ltb_ge in Hpos; lia].
    apply (Hbo emptyBondOrders). intros; reflexivity.
Qed.

(** The theorem of C1 at two carbon atoms 0.00009 bohr apart with bond
    order 3.5, read back as 0. *)
Lemma write_read_roundtrip_witness :
  exists atoms' bo',
    read sample_angstrom_per_bohr (write sample_angstrom_per_bohr close_atoms (Some order_7_2) (lit "V2000") sample_now)
    = Ok (atoms', bo')
    /\ Forall2 (atom_close sample_angstrom_per_bohr) atoms' close_atoms
    /\ forall i j : nat, (i < length close_atoms)%nat -> (j < length close_atoms)%nat -> i <> j ->
         getOrder bo' (Z.of_nat i) (Z.of_nat j)
         = if Qeq_bool (getOrder order_7_2 (Z.of_nat i) (Z.of_nat j)) (7 # 2) then 0%Q
           else inject_Z (std_round (getOrder order_7_2 (Z.of_nat i) (Z.of_nat j))).
Proof.
  apply (write_read_roundtrip sample_angstrom_per_bohr close_atoms order_7_2 sample_now).
  - reflexivity.
  - cbn. lia.
  - repeat constructor; cbn; try reflexivity; lia.
  - intros i j. cbn [getOrder order_7_2]. now rewrite Z.add_comm.
  - intros i j Hij. assert (i = 0%nat /\ j = 1%nat) as [-> ->] by (cbn in Hij; lia).
    split; apply Qle_bool_iff; reflexivity.
  - vm_compute. lia.
Defined.

(** C1, as stated, fails: two carbon atoms 0.00009 bohr apart with bond
    order 3.5.  The second atom is read back at the origin, 9e-5 bohr from
    where it was (more than 5e-5), and the pair has order 0 where the order
    rounds to 4. *)
Lemma write_read_roundtrip_counterexample :
  match read sample_angstrom_per_bohr
          (write sample_angstrom_per_bohr close_atoms (Some order_7_2) (lit "V2000") sample_now) with
  | Ok (atoms', bo') =>
    map element atoms' = map element close_atoms
    /\ (5 # 100000 < Qabs (px (position (nth 1 atoms' default_atom)) - px (position (nth 1 close_atoms default_atom))))%Q
    /\ getOrder bo' 0 1 = 0%Q /\ std_round (getOrder order_7_2 0 1) = 4
  | Err _ => False
  end.
Proof. vm_compute. repeat split; reflexivity. Qed.

(** * Further properties of the reader, the writer and the format dispatch *)

Lemma str_eqb_refl (a : str) : str_eqb a a = true.
Proof. induction a as [|c a IH]; [reflexivity|]. cbn [str_eqb]. now rewrite Ascii.eqb_refl, IH. Qed.




(** ** The counts-line scan *)

Lemma break_line_length (s l after : str) :
  break_line s = Some (l, after) -> length s = (length l + S (length after))%nat.
Proof.
  revert l. induction s as [|c s IH]; intros l Hb; [discriminate|].
  cbn [break_line] in Hb. destruct (Ascii.eqb c nl).
  - injection Hb as <- <-. reflexivity.
  - destruct (break_line s) as [[l' a']|] eqn:Hs; [|discriminate].
    injection Hb as <- ->. cbn [length]. rewrite (IH l' eq_refl). reflexivity.
Qed.

Lemma getline_progress (st st' : istream) (line l : str) :
  getline st line = (st', l, true) -> (length (rest st') < length (rest st))%nat.
Proof.
  unfold getline. destruct (eof st); [discriminate|].
  destruct (rest st) as [|c s] eqn:Hr; [discriminate|].
  destruct (break_line (c :: s)) as [[l' after]|] eqn:Hb; intro Hg; injection Hg as <- <-.
  - apply break_line_length in Hb. cbn [rest]. lia.
  - cbn [rest length]. lia.
Qed.

(** With enough fuel, the fuel does not matter. *)
Lemma scan_counts_fuel (f1 f2 : nat) (st : istream) (line : str) (A B : Z) :
  (length (rest st) < f1)%nat -> (length (rest st) < f2)%nat ->
  scan_counts f1 st line A B = scan_counts f2 st line A B.
Proof.
  revert f2 st line A B. induction f1 as [|f1 IH]; intros f2 st line A B H1 H2; [lia|].
  destruct f2 as [|f2]; [lia|]. cbn [scan_counts].
  destruct (getline st line) as [[st' l] ok] eqn:G. destruct ok; cbn [negb]; [|reflexivity].
  apply getline_progress in G.
  destruct (length l <? 38)%nat; [apply IH; lia|].
  destruct (stoul (substr 0 3 l)) as [[va ca]|]; [|apply IH; lia].
  destruct (negb (Nat.eqb ca 3)); [apply IH; lia|].
  destruct (stoul (substr 3 3 l)) as [[vb cb]|]; [|apply IH; lia].
  destruct (negb (Nat.eqb cb 3)); [apply IH; lia|reflexivity].
Qed.

(** Before anything is read, [line] does not matter. *)
Lemma scan_counts_line (f : nat) (s line line' : str) (A B : Z) :
  scan_counts (S f) (mkIstream s false) line A B = scan_counts (S f) (mkIstream s false) line' A B.
Proof. reflexivity. Qed.

Lemma length_join_lines (ls : list str) : (length ls <= length (join_lines ls))%nat.
Proof.
  induction ls as [|l ls IH]; [cbn; lia|]. unfold join_lines in *. cbn [map concat length].
  rewrite length_app, length_app. cbn [length]. lia.
Qed.

Lemma scan_counts_skip_short (ls : list str) (r : str) (A B : Z) :
  Forall (fun l => nl_free l = true /\ (length l < 38)%nat) ls ->
  forall f line, (length ls + length r < f)%nat ->
  scan_counts f (mkIstream (join_lines ls ++ r) false) line A B
  = scan_counts (S (length r)) (mkIstream r false) [] A B.
Proof.
  induction 1 as [|l ls [Hnl Hl] _ IH]; intros f line Hf.
  - destruct f as [|f]; [lia|]. cbn [join_lines map concat app].
    change (join_lines []) with (@nil ascii). cbn [app].
    rewrite (scan_counts_line f r line []). apply scan_counts_fuel; cbn [rest]; lia.
  - destruct f as [|f]; [lia|]. rewrite join_lines_cons. cbn [scan_counts].
    rewrite getline_line by exact Hnl. cbn [negb].
    replace (length l <? 38)%nat with true by (symmetry; apply Nat.ltb_lt; exact Hl).
    apply IH. cbn [length] in Hf. lia.
Qed.

Lemma skipLine_nl (r : str) : skipLine (mkIstream (nl :: r) false) = mkIstream r false.
Proof. reflexivity. Qed.

(** [read] skips the three header lines whatever they hold, and every
    following line shorter than 38 characters before the counts line: the
    result is the one for three empty header lines and no short lines. *)
Theorem read_ignores_header_and_short_lines {E} `{ElementInfo E} (a : Q) (h1 h2 h3 : str)
    (ls : list str) (r : str) :
  nl_free h1 = true -> nl_free h2 = true -> nl_free h3 = true ->
  Forall (fun l => nl_free l = true /\ (length l < 38)%nat) ls ->
  read a (h1 ++ nl :: h2 ++ nl :: h3 ++ nl :: join_lines ls ++ r) = read a (nl :: nl :: nl :: r).
Proof.
  intros H1 H2 H3 Hls. unfold read.
  rewrite !skipLine_line by assumption. rewrite !skipLine_nl.
  cbn [rest]. rewrite (scan_counts_skip_short ls r 0 0 Hls).
  - reflexivity.
  - pose proof (length_join_lines ls). rewrite length_app. lia.
Qed.

Lemma break_line_nl_free (s : str) : nl_free s = true -> break_line s = None.
Proof.
  induction s as [|c s IH]; intro H; [reflexivity|].
  rewrite nl_free_cons in H. apply andb_true_iff in H as [Hc H]. apply negb_true_iff in Hc.
  cbn [break_line]. rewrite Hc, IH by exact H. reflexivity.
Qed.


Lemma no_counts_line_skipLine (st : istream) : no_counts_line st -> no_counts_line (skipLine st).
Proof.
  intros [He|[ls [last [Hr [He [Hls [Hl Hl38]]]]]]].
  - left. unfold skipLine. rewrite He. exact He.
  - unfold skipLine. rewrite He, Hr. destruct Hls as [|l ls [Hnl _] Hls].
    + cbn [join_lines map concat app]. change (join_lines []) with (@nil ascii). cbn [app].
      rewrite break_line_nl_free by exact Hl. left. reflexivity.
    + rewrite join_lines_cons, break_line_app by exact Hnl. right.
      exists ls, last. cbn [rest eof]. auto.
Qed.

Lemma scan_counts_no_counts_line (f : nat) (st : istream) (line : str) (A B : Z) :
  no_counts_line st -> (length (rest st) < f)%nat ->
  eof (fst (fst (fst (scan_counts f st line A B)))) = true.
Proof.
  revert st line A B. induction f as [|f IH]; intros st line A B Hst Hf; [lia|].
  destruct Hst as [He|[ls [last [Hr [He [Hls [Hl Hl38]]]]]]].
  - cbn [scan_counts]. unfold getline. rewrite He. exact He.
  - destruct st as [s e]. cbn [rest eof] in *. subst s e.
    destruct Hls as [|l ls [Hnl Hl'] Hls].
    + cbn [join_lines map concat app]. change (join_lines []) with (@nil ascii). cbn [app].
      cbn [scan_counts]. unfold getline. cbn [eof rest].
      destruct last as [|c last']; [reflexivity|].
      rewrite break_line_nl_free by exact Hl. cbn [negb].
      replace (length (c :: last') <? 38)%nat with true by (symmetry; apply Nat.ltb_lt; exact Hl38).
      destruct f; [reflexivity|]. apply IH; [left; reflexivity | cbn; lia].
    + rewrite join_lines_cons in Hf |- *. cbn [scan_counts]. rewrite getline_line by exact Hnl. cbn [negb].
      replace (length l <? 38)%nat with true by (symmetry; apply Nat.ltb_lt; exact Hl').
      apply IH.
      * right. exists ls, last. cbn [rest eof]. auto.
      * cbn [rest] in *. repeat (rewrite length_app in *; cbn [length] in *). lia.
Qed.

(** An input whose lines are all shorter than 38 characters (the last one
    not ending in a newline) has no counts line: [read] fails with FormatMismatch. *)
Theorem read_without_counts_line {E} `{ElementInfo E} (a : Q) (ls : list str) (last : str) :
  Forall (fun l => nl_free l = true /\ (length l < 38)%nat) ls ->
  nl_free last = true -> (length last < 38)%nat ->
  read a (join_lines ls ++ last) = Err FormatMismatch.
Proof.
  intros Hls Hl Hl38. unfold read.
  set (st := skipLine (skipLine (skipLine (mkIstream (join_lines ls ++ last) false)))).
  assert (Hst : no_counts_line st).
  { apply no_counts_line_skipLine, no_counts_line_skipLine, no_counts_line_skipLine.
    right. exists ls, last. auto. }
  pose proof (scan_counts_no_counts_line (S (length (rest st))) st [] 0 0 Hst ltac:(lia)) as He.
  destruct (scan_counts (S (length (rest st))) st [] 0 0) as [[[st' line] A] B].
  cbn [fst] in He. rewrite He. reflexivity.
Qed.

Lemma read_after_counts {E} `{ElementInfo E} (a : Q) (input : str) :
  read a input =
  let '(st, line, atomBlockSize, bondBlockSize) := after_counts input in
  if eof st then Err FormatMismatch
  else
    let versionString := removeAllSpaces (substr_from 33 line) in
    if str_eqb versionString (lit "V3000") then Err UnsupportedVersion
    else
      let* r :=
        if str_eqb versionString (lit "V2000")
        then read_atom_block a (Z.to_nat atomBlockSize) st line
        else Ok (repeat default_atom (Z.to_nat atomBlockSize), st, line) in
      let '(atoms, st, line) := r in
      let* r :=
        if 0 <? bondBlockSize
        then read_bond_block (Z.to_nat bondBlockSize) st line (resize emptyBondOrders atomBlockSize)
        else Ok (emptyBondOrders, st, line) in
      let '(bondOrders, _, _) := r in
      Ok (atoms, bondOrders).
Proof. reflexivity. Qed.

Lemma read_atom_block_length {E} `{ElementInfo E} (a : Q) (n : nat) (st st' : istream)
    (line line' : str) (ats : list (Atom E)) :
  read_atom_block a n st line = Ok (ats, st', line') -> length ats = n.
Proof.
  revert st st' line line' ats. induction n as [|n IH]; intros st st' line line' ats Hr.
  - cbn in Hr. now injection Hr as <- _ _.
  - cbn [read_atom_block] in Hr. destruct (getline st line) as [[st1 l] ok].
    destruct (length l <? 34)%nat; [discriminate|].
    destruct (stod_or_catch (substr 0 10 l)); cbn [bind] in Hr; [|discriminate].
    destruct (stod_or_catch (substr 10 10 l)); cbn [bind] in Hr; [|discriminate].
    destruct (stod_or_catch (substr 20 10 l)); cbn [bind] in Hr; [|discriminate].
    destruct (normalize_symbol _); [|discriminate].
    destruct (elementTypeForSymbol _); [|discriminate].
    destruct (read_atom_block a n st1 l) as [[[ats' st2] l2]|err] eqn:Hn; cbn [bind] in Hr; [|discriminate].
    injection Hr as <- _ _. cbn [length]. now rewrite (IH _ _ _ _ _ Hn).
Qed.

(** A successful read returns exactly as many atoms as the counts line
    declares; when the version field is not "V2000" no atom line is read and
    all of them are default atoms. *)
Theorem read_atoms_declared {E} `{ElementInfo E} (a : Q) (input : str) (st : istream) (line : str)
    (A B : Z) (atoms : AtomCollection E) (bo : BondOrderCollection) :
  after_counts input = (st, line, A, B) ->
  read a input = Ok (atoms, bo) ->
  length atoms = Z.to_nat A
  /\ (str_eqb (removeAllSpaces (substr_from 33 line)) (lit "V2000") = false ->
      atoms = repeat default_atom (Z.to_nat A)).
Proof.
  intros Hc Hr. rewrite read_after_counts, Hc in Hr.
  destruct (eof st); [discriminate|]. cbv zeta in Hr.
  destruct (str_eqb _ (lit "V3000")); [discriminate|].
  destruct (str_eqb (removeAllSpaces (substr_from 33 line)) (lit "V2000")) eqn:Hv.
  - destruct (read_atom_block a (Z.to_nat A) st line) as [[[ats st1] l1]|e] eqn:Ha; cbn [bind] in Hr;
      [|discriminate].
    destruct (0 <? B); [destruct (read_bond_block _ _ _ _) as [[[bo' st2] l2]|e2]; cbn [bind] in Hr|];
      try discriminate; injection Hr as <- _;
      (split; [exact (read_atom_block_length a _ _ _ _ _ _ Ha) | discriminate]).
  - cbn [bind] in Hr.
    destruct (0 <? B); [destruct (read_bond_block _ _ _ _) as [[[bo' st2] l2]|e2]; cbn [bind] in Hr|];
      try discriminate; injection Hr as <- _; (split; [apply repeat_length | reflexivity]).
Qed.


Lemma read_bond_block_discrete (n : nat) (st st' : istream) (line line' : str) (bo0 bo : BondOrderCollection) :
  (forall i j, discrete_order (getOrder bo0 i j)) ->
  read_bond_block n st line bo0 = Ok (bo, st', line') ->
  forall i j, discrete_order (getOrder bo i j).
Proof.
  revert st line bo0. induction n as [|n IH]; intros st line bo0 H0 Hr.
  - cbn in Hr. injection Hr as <- _ _. exact H0.
  - cbn [read_bond_block] in Hr. destruct (getline st line) as [[st1 l] ok].
    destruct (length l <? 9)%nat; [discriminate|].
    destruct (stoul (substr 0 3 l)) as [[va [|[|[|[|]]]]]|]; try discriminate.
    destruct (stoul (substr 3 3 l)) as [[vb [|[|[|[|]]]]]|]; try discriminate.
    destruct (stoul (substr 6 3 l)) as [[vs [|[|[|[|]]]]]|]; try discriminate.
    cbv zeta in Hr. eapply IH; [|exact Hr].
    destruct ((0 <? uint vs) && (uint vs <? 4)) eqn:Hs; [|exact H0].
    apply andb_true_iff in Hs as [S1 S2]. apply Z.ltb_lt in S1, S2.
    intros i j. cbn [getOrder setOrder].
    destruct (_ || _); [exists (uint vs); split; [lia | reflexivity] | apply H0].
Qed.

(** Every bond order of a successful read is one of 0, 1, 2, 3: bond
    specifiers outside 1..3 are skipped, never stored. *)
Theorem read_bond_orders_discrete {E} `{ElementInfo E} (a : Q) (input : str)
    (atoms : AtomCollection E) (bo : BondOrderCollection) :
  read a input = Ok (atoms, bo) ->
  forall i j, exists k, 0 <= k <= 3 /\ getOrder bo i j = inject_Z k.
Proof.
  intro Hr. unfold read in Hr.
  destruct (scan_counts _ _ _ _ _) as [[[st line] A] B] in Hr.
  destruct (eof st); [discriminate|]. cbv zeta in Hr.
  destruct (str_eqb _ (lit "V3000")); [discriminate|].
  destruct (if str_eqb _ (lit "V2000") then _ else _) as [[[ats st1] l1]|e]; cbn [bind] in Hr; [|discriminate].
  assert (Hz : forall i j, discrete_order (getOrder (resize emptyBondOrders A) i j))
    by (intros; exists 0; split; [lia | reflexivity]).
  destruct (0 <? B).
  - destruct (read_bond_block _ _ _ _) as [[[bo' st2] l2]|e] eqn:Hb; cbn [bind] in Hr; [|discriminate].
    injection Hr as _ <-. exact (read_bond_block_discrete _ _ _ _ _ _ _ Hz Hb).
  - injection Hr as _ <-. intros; exists 0; split; [lia | reflexivity].
Qed.

Lemma getline_empty (line : str) : getline (mkIstream [] false) line = (mkIstream [] true, [], false).
Proof. reflexivity. Qed.

(** Fewer lines than the atom block needs, the last one ending in a newline. *)
Lemma read_atom_block_short {E} `{ElementInfo E} (a : Q) (ls : list str) (ats : list (Atom E)) :
  Forall2 (atom_line_read a) ls ats ->
  forall n line, (length ls < n)%nat ->
  read_atom_block a n (mkIstream (join_lines ls) false) line = Err FormatMismatch.
Proof.
  induction 1 as [|l at0 ls ats Hl _ IH]; intros n line Hn; (destruct n as [|n]; [cbn in Hn; lia|]).
  - cbn [read_atom_block]. change (join_lines []) with (@nil ascii). rewrite getline_empty. reflexivity.
  - destruct Hl as (Hnl & Hlen & x & y & z & Hx & Hy & Hz & He & Hp).
    cbn [read_atom_block]. rewrite <- (app_nil_r (join_lines (l :: ls))), join_lines_cons, app_nil_r.
    rewrite getline_line by exact Hnl.
    replace (length l <? 34)%nat with false by (symmetry; apply Nat.ltb_ge; exact Hlen).
    read_atom_line Hx Hy Hz He.
    rewrite IH by (cbn [length] in Hn; lia). reflexivity.
Qed.

(** A V2000 input whose text ends (after a final newline) with fewer lines
    than the atom block declares, each of them a valid atom line, is
    rejected with FormatMismatch: the next [getline] yields an empty line. *)
Theorem read_truncated_atom_block {E} `{ElementInfo E} (a : Q) (input : str) (ls : list str)
    (ats : list (Atom E)) (line : str) (A B : Z) :
  after_counts input = (mkIstream (join_lines ls) false, line, A, B) ->
  str_eqb (removeAllSpaces (substr_from 33 line)) (lit "V2000") = true ->
  Forall2 (atom_line_read a) ls ats ->
  (length ls < Z.to_nat A)%nat ->
  read a input = Err FormatMismatch.
Proof.
  intros Hc Hv Hls Hn. rewrite read_after_counts, Hc. cbn [eof]. cbv zeta.
  apply str_eqb_eq in Hv. rewrite Hv. cbn [str_eqb lit list_ascii_of_string Ascii.eqb].
  rewrite (read_atom_block_short a ls ats Hls) by assumption. reflexivity.
Qed.

Lemma read_bond_block_short (ls : list str) :
  Forall (fun l => nl_free l = true) ls ->
  forall n line bo0, (length ls < n)%nat ->
  read_bond_block n (mkIstream (join_lines ls) false) line bo0 = Err FormatMismatch.
Proof.
  induction 1 as [|l ls Hnl _ IH]; intros n line bo0 Hn; (destruct n as [|n]; [cbn in Hn; lia|]).
  - cbn [read_bond_block]. change (join_lines []) with (@nil ascii). rewrite getline_empty. reflexivity.
  - cbn [read_bond_block]. rewrite <- (app_nil_r (join_lines (l :: ls))), join_lines_cons, app_nil_r.
    rewrite getline_line by exact Hnl.
    destruct (length l <? 9)%nat; [reflexivity|].
    destruct (stoul (substr 0 3 l)) as [[va [|[|[|[|]]]]]|]; try reflexivity.
    destruct (stoul (substr 3 3 l)) as [[vb [|[|[|[|]]]]]|]; try reflexivity.
    destruct (stoul (substr 6 3 l)) as [[vs [|[|[|[|]]]]]|]; try reflexivity.
    apply IH. cbn [length] in Hn. lia.
Qed.

(** A V2000 input whose atom block is read but whose text then ends (after a
    final newline) with fewer lines than the bond block declares is rejected
    with FormatMismatch. *)
Theorem read_truncated_bond_block {E} `{ElementInfo E} (a : Q) (input : str) (st : istream)
    (line : str) (A B : Z) (ats : list (Atom E)) (ls : list str) (line' : str) :
  after_counts input = (st, line, A, B) ->
  eof st = false ->
  str_eqb (removeAllSpaces (substr_from 33 line)) (lit "V2000") = true ->
  read_atom_block a (Z.to_nat A) st line = Ok (ats, mkIstream (join_lines ls) false, line') ->
  Forall (fun l => nl_free l = true) ls ->
  (length ls < Z.to_nat B)%nat ->
  read a input = Err FormatMismatch.
Proof.
  intros Hc He Hv Ha Hls Hn. rewrite read_after_counts, Hc, He. cbv zeta.
  apply str_eqb_eq in Hv. rewrite Hv, str_eqb_refl.
  replace (str_eqb (lit "V2000") (lit "V3000")) with false by reflexivity.
  rewrite Ha. cbn [bind]. cbv beta iota.
  replace (0 <? B) with true by (symmetry; apply Z.ltb_lt; lia).
  rewrite read_bond_block_short by assumption. reflexivity.
Qed.

Lemma getline_last (last line : str) :
  nl_free last = true -> last <> [] -> getline (mkIstream last false) line = (mkIstream [] true, last, true).
Proof.
  intros Hnl Hne. unfold getline. cbn [eof rest].
  destruct last as [|c l]; [contradiction|]. rewrite break_line_nl_free by exact Hnl. reflexivity.
Qed.

Lemma read_atom_block_at_eof {E} `{ElementInfo E} (a : Q) (last : str) (at' : Atom E) (m : nat) :
  atom_line_read a last at' ->
  read_atom_block a m (mkIstream [] true) last = Ok (repeat at' m, mkIstream [] true, last).
Proof.
  intros (Hnl & Hlen & x & y & z & Hx & Hy & Hz & He & Hp). induction m as [|m IH]; [reflexivity|].
  cbn [read_atom_block]. unfold getline at 1. cbn [eof].
  replace (length last <? 34)%nat with false by (symmetry; apply Nat.ltb_ge; exact Hlen).
  read_atom_line Hx Hy Hz He. rewrite IH. cbn [bind repeat].
  destruct at' as [e p]. cbn in Hp. subst p. reflexivity.
Qed.

Lemma read_atom_block_last_line {E} `{ElementInfo E} (a : Q) (ls : list str) (ats : list (Atom E))
    (last : str) (at' : Atom E) (m : nat) (line : str) :
  Forall2 (atom_line_read a) ls ats -> atom_line_read a last at' ->
  read_atom_block a (length ls + S m) (mkIstream (join_lines ls ++ last) false) line
  = Ok (ats ++ at' :: repeat at' m, mkIstream [] true, last).
Proof.
  intros HF Hlast. revert line. induction HF as [|l at0 ls ats Hl _ IH]; intro line.
  - cbn [length Nat.add read_atom_block]. change (join_lines []) with (@nil ascii). cbn [app].
    pose proof Hlast as (Hnl & Hlen & x & y & z & Hx & Hy & Hz & He & Hp).
    rewrite getline_last by (try exact Hnl; intros ->; cbn in Hlen; lia).
    replace (length last <? 34)%nat with false by (symmetry; apply Nat.ltb_ge; exact Hlen).
    read_atom_line Hx Hy Hz He. rewrite (read_atom_block_at_eof a last at' m Hlast). cbn [bind app].
    destruct at' as [e p]. cbn in Hp. subst p. reflexivity.
  - destruct Hl as (Hnl & Hlen & x & y & z & Hx & Hy & Hz & He & Hp).
    rewrite join_lines_cons. cbn [length Nat.add read_atom_block]. rewrite getline_line by exact Hnl.
    replace (length l <? 34)%nat with false by (symmetry; apply Nat.ltb_ge; exact Hlen).
    read_atom_line Hx Hy Hz He. fold (Nat.add (length ls) (S m)). rewrite IH. cbn [bind app].
    destruct at0 as [e p]. cbn in Hp. subst p. reflexivity.
Qed.

(** When the text ends inside the atom block on a last atom line without a
    newline, [getline] keeps returning that same line, so [read] succeeds and
    fills the remaining atoms of the block with copies of that last atom. *)
Theorem read_repeats_unterminated_atom_line {E} `{ElementInfo E} (a : Q) (input : str)
    (ls : list str) (last line : str) (A : Z) (ats : list (Atom E)) (at' : Atom E) :
  after_counts input = (mkIstream (join_lines ls ++ last) false, line, A, 0) ->
  str_eqb (removeAllSpaces (substr_from 33 line)) (lit "V2000") = true ->
  Forall2 (atom_line_read a) ls ats -> atom_line_read a last at' ->
  (length ls < Z.to_nat A)%nat ->
  read a input = Ok (ats ++ repeat at' (Z.to_nat A - length ls), emptyBondOrders).
Proof.
  intros Hc Hv HF Hlast Hn. rewrite read_after_counts, Hc. cbn [eof]. cbv zeta.
  apply str_eqb_eq in Hv. rewrite Hv. cbn [str_eqb lit list_ascii_of_string Ascii.eqb].
  replace (Z.to_nat A) with (length ls + S (Z.to_nat A - S (length ls)))%nat at 1 by lia.
  rewrite (read_atom_block_last_line a ls ats last at') by assumption. cbn [bind].
  replace (Z.to_nat A - length ls)%nat with (S (Z.to_nat A - S (length ls))) by lia.
  reflexivity.
Qed.

Lemma atom_count_le {E} (atoms : AtomCollection E) : (Z.to_nat (atom_count atoms) <= length atoms)%nat.
Proof.
  unfold atom_count, uint. pose proof (Z.mod_le (Z.of_nat (length atoms)) (2 ^ 32)). lia.
Qed.

(** When no element symbol and the version string contain a newline, the
    output of [write] is its lines, each ending in a newline, followed by the
    unterminated "M END": 4 header and counts lines, one line per counted atom
    and one per bond entry. *)
Theorem write_line_structure {E} `{ElementInfo E} (a : Q) (atoms : AtomCollection E)
    (bo : option BondOrderCollection) (fv : str) (now : tm) :
  Forall (fun at' => nl_free (symbol (element at')) = true) atoms -> nl_free fv = true ->
  write a atoms bo fv now = join_lines (write_lines a atoms bo fv now) ++ terminator
  /\ Forall (fun l => nl_free l = true) (write_lines a atoms bo fv now)
  /\ length (write_lines a atoms bo fv now)
     = (4 + Z.to_nat (atom_count atoms) + length (bond_entries (atom_count atoms) bo))%nat
  /\ nl_free terminator = true.
Proof.
  intros Hs Hfv. split; [reflexivity|]. split; [|split; [|reflexivity]].
  - rewrite write_lines_split. apply Forall_app. split; [|apply Forall_app; split].
    + repeat constructor; [apply nl_free_program_line|].
      unfold counts_line. rewrite !nl_free_app, !nl_free_put_unsigned, nl_free_concat_repeat,
        nl_free_setw by (apply nl_free_put_unsigned || exact Hfv). reflexivity.
    + apply Forall_map, Forall_forall. intros i Hi. apply in_seq in Hi.
      pose proof (atom_count_le atoms).
      assert (Hsi : nl_free (symbol (element (nth i atoms default_atom))) = true)
        by (apply (Forall_nth (fun at' => nl_free (symbol (element at')) = true)); [exact Hs | lia]).
      unfold atom_line. rewrite !nl_free_app.
      repeat rewrite nl_free_setw by first [apply nl_free_put_fixed4 | exact Hsi].
      rewrite !nl_free_put_unsigned, !nl_free_concat_repeat by apply nl_free_put_unsigned. reflexivity.
    + apply Forall_map, Forall_forall. intros [[i j] r] _. unfold bond_line.
      rewrite !nl_free_app, !nl_free_put_unsigned, nl_free_concat_repeat by apply nl_free_put_unsigned.
      reflexivity.
  - rewrite write_lines_split, !length_app, !length_map, length_seq. reflexivity.
Qed.

(** Without bond orders (and with fewer than 2^32 atoms), [write] puts a bond
    count of 0 in the counts line, writes one atom line per atom with
    valence 0, and no bond line. *)
Theorem write_without_bonds {E} `{ElementInfo E} (a : Q) (atoms : AtomCollection E) (fv : str) (now : tm) :
  Z.of_nat (length atoms) < 2 ^ 32 ->
  write a atoms None fv now
  = join_lines ([name_line; program_line now; []; counts_line (Z.of_nat (length atoms)) 0 fv]
                ++ map (fun at' => atom_line a (position at') (element at') 0) atoms)
    ++ terminator.
Proof.
  intro HN. rewrite write_join, write_lines_split.
  assert (HcN : atom_count atoms = Z.of_nat (length atoms)) by (unfold atom_count; apply uint_small; lia).
  rewrite bond_count_mod. cbn [bond_entries length]. rewrite Zmod_0_l, app_nil_r, HcN, Nat2Z.id.
  f_equal. f_equal. f_equal.
  set (w := fun at' : Atom E => atom_line a (position at') (element at') 0).
  transitivity (map w (map (fun i => nth i atoms default_atom) (seq 0 (length atoms))));
    [|now rewrite map_nth_seq_self].
  rewrite map_map.
  apply map_ext_in. intros i Hi. apply in_seq in Hi. cbn [count_valences].
  rewrite nth_repeat. reflexivity.
Qed.

(** Writing at most 999 writable atoms through the "mol" dispatch without bond
    orders and reading the text back through the "mol" dispatch succeeds, with
    empty bond orders and atoms close to the written ones. *)
Theorem write_read_format_roundtrip {E} `{ElementInfo E} (a : Q) (atoms : AtomCollection E) (now : tm) :
  (0 < a)%Q ->
  (length atoms <= 999)%nat ->
  Forall (atom_writable a) atoms ->
  exists text atoms',
    write_format a (lit "mol") atoms now = inr text
    /\ read_format a text (lit "mol") = inr (atoms', emptyBondOrders)
    /\ Forall2 (atom_close a) atoms' atoms.
Proof.
  intros Ha HN Hw.
  assert (HcN : atom_count atoms = Z.of_nat (length atoms)) by (unfold atom_count; apply uint_small; lia).
  assert (HcB : bond_count atoms None = 0) by (rewrite bond_count_mod; reflexivity).
  exists (write a atoms None (lit "V2000") now).
  unfold write_format, read_format. rewrite str_eqb_refl. cbn [negb].
  destruct (counts_line_reads (atom_count atoms) (bond_count atoms None)) as (Cnl & Clen & CN & CB & CV);
    [lia|lia|].
  unfold read. rewrite write_join, write_lines_split, join_lines_four.
  rewrite skipLine_line by reflexivity. rewrite skipLine_line by apply nl_free_program_line.
  rewrite skipLine_line by reflexivity.
  rewrite scan_counts_first with (va := atom_count atoms) (vb := bond_count atoms None) by assumption.
  cbv beta iota zeta delta [eof]. rewrite CV.
  replace (str_eqb (lit "V2000") (lit "V3000")) with false by reflexivity.
  rewrite str_eqb_refl. cbv iota.
  rewrite !(uint_small (atom_count atoms)) by (apply atom_count_range).
  rewrite HcB. cbn [bond_entries map]. rewrite app_nil_r.
  set (vs := count_valences (atom_count atoms) None).
  rewrite HcN, !Nat2Z.id.
  set (f := fun i => let at0 := nth i atoms default_atom in
                     atom_line a (position at0) (element at0) (nth i vs 0)).
  destruct (Forall2_of_exists (fun i at' => atom_line_read a (f i) at' /\ atom_close a at' (nth i atoms default_atom))
              (seq 0 (length atoms))) as [ats HF].
  { intros i Hi. apply in_seq in Hi.
    assert (Hwi : atom_writable a (nth i atoms default_atom)) by (apply Forall_nth; [exact Hw | lia]).
    destruct Hwi as (Hl & Hsp & Hnl & Hlen & Hx & Hy & Hz).
    destruct (atom_line_reads a (position (nth i atoms default_atom)) (element (nth i atoms default_atom))
                (nth i vs 0) Ha Hx Hy Hz Hnl Hsp Hlen Hl) as [at' [Hr [He [Cx [Cy Cz]]]]].
    exists at'. split; [exact Hr|]. repeat split; assumption. }
  apply Forall2_and_l in HF as [HF1 HF2].
  apply (Forall2_map_l f (atom_line_read a)) in HF1.
  apply (Forall2_flip_map (fun i => nth i atoms default_atom) (atom_close a)) in HF2.
  rewrite map_nth_seq_self in HF2.
  destruct (read_atom_block_lines a _ _ terminator
              (counts_line (Z.of_nat (length atoms)) 0 (lit "V2000")) HF1) as [line' RA].
  rewrite length_map, length_seq in RA.
  rewrite RA. cbn [bind]. cbv beta iota.
  exists ats. split; [reflexivity|]. split; [reflexivity | exact HF2].
Qed.

Lemma read_ignores_header_and_short_lines_witness :
  read sample_angstrom_per_bohr (lit "Unnamed" ++ nl :: [] ++ nl :: lit "c" ++ nl ::
                                 join_lines [lit "short"; []] ++ v2000_last_line_input)
  = read sample_angstrom_per_bohr (nl :: nl :: nl :: v2000_last_line_input).
Proof.
  apply (read_ignores_header_and_short_lines sample_angstrom_per_bohr (lit "Unnamed") [] (lit "c")
           [lit "short"; []] v2000_last_line_input); try reflexivity.
  repeat constructor; cbn; lia.
Defined.

Lemma read_without_counts_line_witness :
  read sample_angstrom_per_bohr (join_lines [lit "Unnamed Molecule"; []; []; lit "  2  0"] ++ lit "M  END")
  = Err FormatMismatch.
Proof.
  apply (read_without_counts_line sample_angstrom_per_bohr [lit "Unnamed Molecule"; []; []; lit "  2  0"]
           (lit "M  END")); try reflexivity.
  - repeat constructor; cbn; lia.
  - cbn; lia.
Defined.

Lemma read_atoms_declared_witness :
  length (ok_atoms (read sample_angstrom_per_bohr unknown_version_input)) = Z.to_nat 2
  /\ (str_eqb (removeAllSpaces (substr_from 33 (snd (fst (fst (after_counts unknown_version_input))))))
              (lit "V2000") = false ->
      ok_atoms (read sample_angstrom_per_bohr unknown_version_input) = repeat default_atom (Z.to_nat 2)).
Proof.
  apply (read_atoms_declared sample_angstrom_per_bohr unknown_version_input
           (fst (fst (fst (after_counts unknown_version_input))))
           (snd (fst (fst (after_counts unknown_version_input)))) 2 1
           (ok_atoms (read sample_angstrom_per_bohr unknown_version_input))
           (ok_orders (read sample_angstrom_per_bohr unknown_version_input)));
    vm_compute; reflexivity.
Defined.

Lemma read_bond_orders_discrete_witness :
  exists k, 0 <= k <= 3 /\
    getOrder (ok_orders (read sample_angstrom_per_bohr out_of_range_input)) 4 0 = inject_Z k.
Proof.
  apply (read_bond_orders_discrete sample_angstrom_per_bohr out_of_range_input
           (ok_atoms (read sample_angstrom_per_bohr out_of_range_input))
           (ok_orders (read sample_angstrom_per_bohr out_of_range_input))).
  vm_compute. reflexivity.
Defined.

Lemma read_truncated_atom_block_witness :
  read sample_angstrom_per_bohr truncated_atoms_input = Err FormatMismatch.
Proof.
  apply (read_truncated_atom_block sample_angstrom_per_bohr truncated_atoms_input [lit carbon_line]
           [carbon_read sample_angstrom_per_bohr]
           (snd (fst (fst (after_counts truncated_atoms_input)))) 2 0);
    [vm_compute; reflexivity | vm_compute; reflexivity | | cbn; lia].
  constructor; [|constructor].
  split; [reflexivity|]. split; [apply Nat.leb_le; reflexivity|].
  do 3 eexists. split; [|split; [|split; [|split]]]; [vm_compute; reflexivity .. | reflexivity].
Defined.

Lemma read_truncated_bond_block_witness :
  read sample_angstrom_per_bohr truncated_bonds_input = Err FormatMismatch.
Proof.
  set (c := after_counts truncated_bonds_input).
  set (b := read_atom_block sample_angstrom_per_bohr 1 (fst (fst (fst c))) (snd (fst (fst c)))).
  apply (read_truncated_bond_block sample_angstrom_per_bohr truncated_bonds_input
           (fst (fst (fst c))) (snd (fst (fst c))) 1 2
           (match b with Ok (x, _, _) => x | Err _ => [] end) [lit "  1  1  1  0  0  0  0"]
           (match b with Ok (_, _, l) => l | Err _ => [] end));
    [vm_compute; reflexivity .. | repeat constructor | cbn; lia].
Defined.

Lemma read_repeats_unterminated_atom_line_witness :
  read sample_angstrom_per_bohr unterminated_input
  = Ok ([] ++ repeat (carbon_read sample_angstrom_per_bohr) (Z.to_nat 3 - length (@nil str)), emptyBondOrders).
Proof.
  apply (read_repeats_unterminated_atom_line sample_angstrom_per_bohr unterminated_input [] (lit carbon_line)
           (snd (fst (fst (after_counts unterminated_input)))) 3 [] (carbon_read sample_angstrom_per_bohr)).
  - vm_compute. reflexivity.
  - vm_compute. reflexivity.
  - constructor.
  - split; [reflexivity|]. split; [apply Nat.leb_le; reflexivity|].
    do 3 eexists. split; [|split; [|split; [|split]]]; [vm_compute; reflexivity .. | reflexivity].
  - cbn. lia.
Defined.

Lemma write_line_structure_witness :
  write sample_angstrom_per_bohr pair_atoms (Some single_bond) (lit "V2000") sample_now
  = join_lines (write_lines sample_angstrom_per_bohr pair_atoms (Some single_bond) (lit "V2000") sample_now)
    ++ terminator
  /\ Forall (fun l => nl_free l = true)
       (write_lines sample_angstrom_per_bohr pair_atoms (Some single_bond) (lit "V2000") sample_now)
  /\ length (write_lines sample_angstrom_per_bohr pair_atoms (Some single_bond) (lit "V2000") sample_now)
     = (4 + Z.to_nat (atom_count pair_atoms) + length (bond_entries (atom_count pair_atoms) (Some single_bond)))%nat
  /\ nl_free terminator = true.
Proof.
  apply write_line_structure; [repeat constructor | reflexivity].
Defined.

Lemma write_without_bonds_witness :
  write sample_angstrom_per_bohr pair_atoms None (lit "V2000") sample_now
  = join_lines ([name_line; program_line sample_now; [];
                 counts_line (Z.of_nat (length pair_atoms)) 0 (lit "V2000")]
                ++ map (fun at' => atom_line sample_angstrom_per_bohr (position at') (element at') 0) pair_atoms)
    ++ terminator.
Proof. apply write_without_bonds. cbn. lia. Defined.

Lemma write_read_format_roundtrip_witness :
  exists text atoms',
    write_format sample_angstrom_per_bohr (lit "mol") pair_atoms sample_now = inr text
    /\ read_format sample_angstrom_per_bohr text (lit "mol") = inr (atoms', emptyBondOrders)
    /\ Forall2 (atom_close sample_angstrom_per_bohr) atoms' pair_atoms.
Proof.
  apply write_read_format_roundtrip.
  - reflexivity.
  - cbn. lia.
  - repeat constructor; cbn; try reflexivity; lia.
Defined.
